(** * CRUD gateway and sum-to-n exercises: a verification development

    The development embeds, function by function,
    - the three [sum_to_n] exercises,
    - the [Author] service and the [Product] query builder with its use-case
      wrappers, running against a relational store with a foreign key from
      [Product.authorID] to [Author.ID],
    - the request handlers of the [Author] and [Product] routers.
*)

From stdpp Require Import gmap strings list fin_maps.
From Stdlib Require Import ZArith Lia.
From Stdlib Require PrimFloat SpecFloat FloatOps Uint63.

Local Open Scope Z_scope.
Set Warnings "-register-all".

(** ** Sum to n *)

Module SumToN.

(** A [number] of the program: an IEEE-754 binary64 value. The functions are
    run on integers, and every value they then compute is an integer or a
    special value, so a number is an integer [Num z] (one that binary64
    holds), an infinity or NaN. The two zeros are one [Num 0]; numbers with a
    fraction are outside this type. *)
Inductive number :=
| Num (z : Z)
| Infinity
| NegInfinity
| NaN.

(** Round to nearest, ties to even, on the magnitude [a] of an integer: up to
    53 significant bits are kept as they are; of a longer one the leading 53
    bits [q] are kept and the rest [r] decides whether [q] moves up. *)
Definition round_magnitude (a : Z) : Z :=
  let e := Z.log2 a - 52 in
  if e <=? 0 then a
  else
    let q := a / 2 ^ e in
    let r := a mod 2 ^ e in
    let half := 2 ^ (e - 1) in
    let q' := if r <? half then q
              else if half <? r then q + 1
              else if Z.even q then q else q + 1 in
    q' * 2 ^ e.

(** The binary64 value of an exact integer result: rounded, and an infinity
    from 2^1024 on. *)
Definition round_double (z : Z) : number :=
  let m := round_magnitude (Z.abs z) in
  if 2 ^ 1024 <=? m then (if z <? 0 then NegInfinity else Infinity)
  else Num (Z.sgn z * m).

Definition neg (x : number) : number :=
  match x with
  | Num z => Num (- z)
  | Infinity => NegInfinity
  | NegInfinity => Infinity
  | NaN => NaN
  end.

(** [x + y]. *)
Definition add (x y : number) : number :=
  match x, y with
  | Num a, Num b => round_double (a + b)
  | NaN, _ | _, NaN => NaN
  | Infinity, NegInfinity | NegInfinity, Infinity => NaN
  | Infinity, _ | _, Infinity => Infinity
  | NegInfinity, _ | _, NegInfinity => NegInfinity
  end.

(** [x - y]. *)
Definition sub (x y : number) : number := add x (neg y).

(** [x * y]. *)
Definition mul (x y : number) : number :=
  match x, y with
  | Num a, Num b => round_double (a * b)
  | NaN, _ | _, NaN => NaN
  | Num a, Infinity | Infinity, Num a =>
      if a =? 0 then NaN else if a <? 0 then NegInfinity else Infinity
  | Num a, NegInfinity | NegInfinity, Num a =>
      if a =? 0 then NaN else if a <? 0 then Infinity else NegInfinity
  | Infinity, Infinity | NegInfinity, NegInfinity => Infinity
  | Infinity, NegInfinity | NegInfinity, Infinity => NegInfinity
  end.

(** [x / 2] for an even [x], where the division is exact. The program
    divides only [n * (n + 1)], which is even for every integer [n], rounded
    or not ([sum_to_n_c_divides_even] below). *)
Definition halve (x : number) : number :=
  match x with
  | Num z => Num (z / 2)
  | _ => x
  end.

(** [x <= y]. *)
Definition leb (x y : number) : bool :=
  match x, y with
  | NaN, _ | _, NaN => false
  | Num a, Num b => a <=? b
  | NegInfinity, _ | _, Infinity => true
  | _, NegInfinity | Infinity, _ => false
  end.

(** [for (let i = 1; i <= n; i++) total += i]: one turn per unit of [fuel];
    [None] when the loop has not ended within [fuel] turns. *)
Fixpoint loop_a (fuel : nat) (n i total : number) : option number :=
  match fuel with
  | O => None
  | S fuel' =>
      if leb i n then loop_a fuel' n (add i (Num 1)) (add total i)
      else Some total
  end.

Definition sum_to_n_a (fuel : nat) (n : number) : option number :=
  loop_a fuel n (Num 1) (Num 0).

(** The recursion takes one frame of the call stack per call; [depth] is the
    number of frames the engine has left, and [None] is its RangeError when
    they run out. *)
Fixpoint sum_to_n_b (depth : nat) (n : number) : option number :=
  match depth with
  | O => None
  | S depth' =>
      if leb n (Num 1) then Some n
      else r ← sum_to_n_b depth' (sub n (Num 1)); Some (add n r)
  end.

Definition sum_to_n_c (n : number) : number :=
  halve (mul n (add n (Num 1))).


(** The kernel's binary64 numbers, to check the rounding against: the float
    of an integer of magnitude up to 2^53, and the number of a float ([None]
    for one with a fraction). *)
Definition float_of_Z (z : Z) : PrimFloat.float :=
  if z <? 0 then PrimFloat.opp (PrimFloat.of_uint63 (Uint63.of_Z (- z)))
  else PrimFloat.of_uint63 (Uint63.of_Z z).

Definition number_of_float (f : PrimFloat.float) : option number :=
  match FloatOps.Prim2SF f with
  | SpecFloat.S754_zero _ => Some (Num 0)
  | SpecFloat.S754_infinity s => Some (if s then NegInfinity else Infinity)
  | SpecFloat.S754_nan => Some NaN
  | SpecFloat.S754_finite s m e =>
      if 0 <=? e then Some (Num (SpecFloat.cond_Zopp s (Z.pos m) * 2 ^ e))
      else if Z.pos m mod 2 ^ (- e) =? 0
           then Some (Num (SpecFloat.cond_Zopp s (Z.pos m / 2 ^ (- e))))
           else None
  end.

#[export] Instance number_eq_dec : EqDecision number.
Proof. solve_decision. Defined.

(** [add] and [mul] give on [a] and [b] what the kernel's floats give. *)
Definition as_binary64 (a b : Z) : bool :=
  bool_decide (number_of_float (PrimFloat.add (float_of_Z a) (float_of_Z b))
               = Some (add (Num a) (Num b)))
  && bool_decide (number_of_float (PrimFloat.mul (float_of_Z a) (float_of_Z b))
                  = Some (mul (Num a) (Num b))).

(** Sample integers of every size up to 2^53 and of either sign, drawn by a
    linear congruential generator. *)
Definition next_sample (x : Z) : Z :=
  (x * 6364136223846793005 + 1442695040888963407) mod 2 ^ 64.

Definition sized (x : Z) : Z :=
  let bits := (x / 2 ^ 56) mod 54 in
  let v := (x mod 2 ^ 53 + 1) mod (2 ^ bits + 1) in
  if Z.even (x / 2 ^ 55) then v else - v.

Fixpoint sample_pairs (k : nat) (x : Z) : list (Z * Z) :=
  match k with
  | O => []
  | S k' =>
      let y := next_sample x in
      let z := next_sample y in
      (sized y, sized z) :: sample_pairs k' z
  end.

End SumToN.

(** ** JavaScript values *)

(** A [Date] holds a time value in milliseconds, or is the Invalid Date. *)
Inductive DateValue :=
| ValidDate (ms : Z)
| InvalidDate.

Inductive value :=
| VUndefined
| VNull
| VBool (b : bool)
| VNum (n : Z)
| VStr (s : string)
| VDate (d : DateValue)
| VObj (fields : list (string * value))
| VArr (items : list value)
| VFun (name : string).

(** Property read [o.k]; a missing property reads as [undefined]. *)
Fixpoint get_field (k : string) (fields : list (string * value)) : value :=
  match fields with
  | [] => VUndefined
  | (k', v) :: rest => if String.eqb k k' then v else get_field k rest
  end.

Definition get (k : string) (v : value) : value :=
  match v with
  | VObj fields => get_field k fields
  | _ => VUndefined
  end.

Definition keys (v : value) : list string :=
  match v with
  | VObj fields => map fst fields
  | _ => []
  end.

(** [Date | string], the type of a [datePublish] input. *)
Inductive DateInput :=
| DDate (d : DateValue)
| DString (s : string).

(** The runtime's date parser, [Date.parse]. *)
Class DateParse := Date_parse : string -> DateValue.

(** [new Date(x)] for [x : Date | string]. *)
Definition new_Date `{DateParse} (x : DateInput) : DateValue :=
  match x with
  | DDate d => d
  | DString str => Date_parse str
  end.

(** ** Entities *)

Module Author.
(** [type Author], also the row of the author table. *)
Record t := mk {
  ID : Z;
  firstName : string;
  lastName : string;
  createdAt : Z;
  updatedAt : Z
}.

(** [Omit<Author, 'ID'>], as [createAuthor] receives it: the handler of
    [POST /] lets a body through only when both names are strings. *)
Record input := mk_input {
  i_firstName : string;
  i_lastName : string;
  i_createdAt : Z;
  i_updatedAt : Z
}.

(** [Omit<Author, 'ID'>], as [updateAuthorById] receives it: the handler of
    [PUT /:id] hands over the body of the request without testing it, so a
    field may be absent; [None] is a field that is absent (it reads as
    [undefined]). *)
Record update_input := mk_update_input {
  u_firstName : option string;
  u_lastName : option string;
  u_createdAt : option Z;
  u_updatedAt : option Z
}.

(** An input with every field, as an update input. *)
Definition full (author : input) : update_input :=
  {| u_firstName := Some (i_firstName author);
     u_lastName := Some (i_lastName author);
     u_createdAt := Some (i_createdAt author);
     u_updatedAt := Some (i_updatedAt author) |}.

(** The body [{}]. *)
Definition empty_update : update_input :=
  {| u_firstName := None; u_lastName := None;
     u_createdAt := None; u_updatedAt := None |}.

Definition to_value (a : t) : value :=
  VObj [("ID", VNum (ID a)); ("firstName", VStr (firstName a));
        ("lastName", VStr (lastName a));
        ("createdAt", VDate (ValidDate (createdAt a)));
        ("updatedAt", VDate (ValidDate (updatedAt a)))]%string.
End Author.

Module Product.
(** The row of the product table: the scalar columns. *)
Record row := mk_row {
  ID : Z;
  title : string;
  isFiction : bool;
  datePublish : DateValue;
  authorID : Z;
  createdAt : Z;
  updatedAt : Z
}.

(** [type ProductRead]. *)
Record ProductRead := mk_read {
  r_ID : Z;
  r_title : string;
  r_isFiction : bool;
  r_datePublish : DateValue;
  r_author : Author.t;
  r_createdAt : Z;
  r_updatedAt : Z
}.

(** [type ProductCreateData]. *)
Record ProductCreateData := mk_create {
  c_title : string;
  c_isFiction : bool;
  c_datePublish : DateInput;
  c_authorID : Z
}.

(** [type ProductUpdateData]: every field is optional; [None] is a field
    that is absent (or [undefined]). *)
Record ProductUpdateData := mk_update {
  u_title : option string;
  u_isFiction : option bool;
  u_datePublish : option DateInput;
  u_authorID : option Z
}.

Definition to_value (r : ProductRead) : value :=
  VObj [("ID", VNum (r_ID r)); ("title", VStr (r_title r));
        ("isFiction", VBool (r_isFiction r));
        ("datePublish", VDate (r_datePublish r));
        ("author", Author.to_value (r_author r));
        ("createdAt", VDate (ValidDate (r_createdAt r)));
        ("updatedAt", VDate (ValidDate (r_updatedAt r)))]%string.
End Product.

(** ** The backing store *)

(** Modelled from the spec: the failures of the store client (the client is
    not among the sources): a targeted ID that no record has, and a foreign
    key that is missing or still referenced. *)
Inductive StoreError :=
| NotFoundError
| ReferentialIntegrityError.

Inductive result (A : Type) :=
| Ok (a : A)
| Err (e : StoreError).
Arguments Ok {A} a.
Arguments Err {A} e.

(** Modelled from the spec: the content of the store (its schema is not among
    the sources): the author and product tables by ID, the counters of the
    store-assigned IDs and the clock of the store-assigned timestamps. *)
Record Store := mk_store {
  authors : gmap Z Author.t;
  products : gmap Z Product.row;
  nextAuthorID : Z;
  nextProductID : Z;
  now : Z
}.

(** A store operation: runs on a store, succeeds or throws, leaves a store. *)
Definition M (A : Type) : Type := Store -> result A * Store.

Definition throw {A} (e : StoreError) : M A := fun s => (Err e, s).

#[export] Instance M_ret : MRet M := fun A a s => (Ok a, s).
#[export] Instance M_bind : MBind M := fun A B f m s =>
  match m s with
  | (Ok a, s') => f a s'
  | (Err e, s') => (Err e, s')
  end.

(** A selection object: [k: true] and [k: { select: ... }] entries in order. *)
Inductive Select :=
| SNil
| SField (k : string) (rest : Select)
| SRel (k : string) (sub : Select) (rest : Select).

Definition rows_of {A} (m : gmap Z A) : list A := (map_to_list m).*2.

Definition author_scalar (k : string) (a : Author.t) : option value :=
  if String.eqb k "ID" then Some (VNum (Author.ID a))
  else if String.eqb k "firstName" then Some (VStr (Author.firstName a))
  else if String.eqb k "lastName" then Some (VStr (Author.lastName a))
  else if String.eqb k "createdAt" then Some (VDate (ValidDate (Author.createdAt a)))
  else if String.eqb k "updatedAt" then Some (VDate (ValidDate (Author.updatedAt a)))
  else None.

Definition product_scalar (k : string) (p : Product.row) : option value :=
  if String.eqb k "ID" then Some (VNum (Product.ID p))
  else if String.eqb k "title" then Some (VStr (Product.title p))
  else if String.eqb k "isFiction" then Some (VBool (Product.isFiction p))
  else if String.eqb k "datePublish" then Some (VDate (Product.datePublish p))
  else if String.eqb k "authorID" then Some (VNum (Product.authorID p))
  else if String.eqb k "createdAt" then Some (VDate (ValidDate (Product.createdAt p)))
  else if String.eqb k "updatedAt" then Some (VDate (ValidDate (Product.updatedAt p)))
  else None.

(** Modelled from the spec: the store client's field projection (the client
    itself is not among the sources). A product has its scalar columns and
    the relation [author]; an author has its scalar columns and the relation
    [products], the list of the products that reference it. A selection
    yields the selected entries in the order it lists them. *)
Fixpoint project_product (s : Store) (sel : Select) (p : Product.row)
    {struct sel} : list (string * value) :=
  match sel with
  | SNil => []
  | SField k rest =>
      match product_scalar k p with
      | Some v => (k, v) :: project_product s rest p
      | None => project_product s rest p
      end
  | SRel k sub rest =>
      if String.eqb k "author" then
        (k, match authors s !! Product.authorID p with
            | Some a => VObj (project_author s sub a)
            | None => VNull
            end) :: project_product s rest p
      else project_product s rest p
  end
with project_author (s : Store) (sel : Select) (a : Author.t)
    {struct sel} : list (string * value) :=
  match sel with
  | SNil => []
  | SField k rest =>
      match author_scalar k a with
      | Some v => (k, v) :: project_author s rest a
      | None => project_author s rest a
      end
  | SRel k sub rest =>
      if String.eqb k "products" then
        (k, VArr (map (fun p => VObj (project_product s sub p))
                      (filter (fun p => Product.authorID p = Author.ID a)
                              (rows_of (products s)))))
        :: project_author s rest a
      else project_author s rest a
  end.

(** The selection used when a call passes none: every scalar column. *)
Definition product_columns : Select :=
  SField "ID" (SField "title" (SField "isFiction" (SField "datePublish"
    (SField "authorID" (SField "createdAt" (SField "updatedAt" SNil)))))).

Definition author_columns : Select :=
  SField "ID" (SField "firstName" (SField "lastName"
    (SField "createdAt" (SField "updatedAt" SNil)))).

(** The products that reference the author [ID]. *)
Definition referencing (s : Store) (ID : Z) : list Product.row :=
  filter (fun p => Product.authorID p = ID) (rows_of (products s)).

(** An [authorID], when given, that no author has. *)
Definition dangling (s : Store) (authorID : option Z) : bool :=
  match authorID with
  | Some a => bool_decide (authors s !! a = None)
  | None => false
  end.

Module db.

Module author.
Record create_data := mk_create_data {
  c_firstName : string;
  c_lastName : string
}.

(** The [data] object of an update: a key is present or not. *)
Record update_data := mk_update_data {
  u_firstName : option string;
  u_lastName : option string
}.

Definition apply (d : update_data) (t : Z) (a : Author.t) : Author.t :=
  {| Author.ID := Author.ID a;
     Author.firstName := default (Author.firstName a) (u_firstName d);
     Author.lastName := default (Author.lastName a) (u_lastName d);
     Author.createdAt := Author.createdAt a;
     Author.updatedAt := t |}.

(** Modelled from the spec: the store client's [author.findMany] (the
    client and the schema are not among the sources): all records, each
    under the selection; an empty store gives the empty sequence. *)
Definition findMany (sel : Select) : M value := fun s =>
  (Ok (VArr (map (fun a => VObj (project_author s sel a)) (rows_of (authors s)))), s).

(** Modelled from the spec: the store client's [author.findUnique]: the
    record under the selection, or [null] when no record has that ID. *)
Definition findUnique (ID : Z) (sel : Select) : M value := fun s =>
  (Ok (match authors s !! ID with
       | Some a => VObj (project_author s sel a)
       | None => VNull
       end), s).

(** Modelled from the spec: the store client's [author.create]: persists
    a new record with store-assigned ID and timestamps and returns it
    under the selection. *)
Definition create (d : create_data) (sel : Select) : M value := fun s =>
  let a := {| Author.ID := nextAuthorID s;
              Author.firstName := c_firstName d;
              Author.lastName := c_lastName d;
              Author.createdAt := now s;
              Author.updatedAt := now s |} in
  let s' := {| authors := <[nextAuthorID s := a]> (authors s);
               products := products s;
               nextAuthorID := nextAuthorID s + 1;
               nextProductID := nextProductID s;
               now := now s + 1 |} in
  (Ok (VObj (project_author s' sel a)), s').

(** Modelled from the spec: the store client's [author.update]: applies
    only the fields present in the data, fails with [NotFoundError] if
    the ID does not exist, assigns [updatedAt], and returns the updated
    record under the selection. ([None] is a key that is not there, or
    whose value is [undefined].) *)
Definition update (ID : Z) (d : update_data) (sel : Select) : M value := fun s =>
  match authors s !! ID with
  | None => (Err NotFoundError, s)
  | Some a =>
      let a' := apply d (now s) a in
      let s' := {| authors := <[ID := a']> (authors s);
                   products := products s;
                   nextAuthorID := nextAuthorID s;
                   nextProductID := nextProductID s;
                   now := now s + 1 |} in
      (Ok (VObj (project_author s' sel a')), s')
  end.

(** Modelled from the spec: the store client's [author.delete]: fails
    with [NotFoundError] if the ID does not exist and with
    [ReferentialIntegrityError] while a product references the author
    (no cascade); otherwise removes the record. Like the other writes it
    yields the record it touched, under every scalar column. *)
Definition delete (ID : Z) : M value := fun s =>
  match authors s !! ID with
  | None => (Err NotFoundError, s)
  | Some a =>
      match referencing s ID with
      | _ :: _ => (Err ReferentialIntegrityError, s)
      | [] =>
          (Ok (VObj (project_author s author_columns a)),
           {| authors := base.delete ID (authors s);
              products := products s;
              nextAuthorID := nextAuthorID s;
              nextProductID := nextProductID s;
              now := now s |})
      end
  end.
End author.

Module product.
Record create_data := mk_create_data {
  c_title : string;
  c_isFiction : bool;
  c_datePublish : DateValue;
  c_authorID : Z
}.

(** The [data] object of an update: a key is present or not. *)
Record update_data := mk_update_data {
  u_title : option string;
  u_isFiction : option bool;
  u_datePublish : option DateValue;
  u_authorID : option Z
}.

Definition apply (d : update_data) (t : Z) (p : Product.row) : Product.row :=
  {| Product.ID := Product.ID p;
     Product.title := default (Product.title p) (u_title d);
     Product.isFiction := default (Product.isFiction p) (u_isFiction d);
     Product.datePublish := default (Product.datePublish p) (u_datePublish d);
     Product.authorID := default (Product.authorID p) (u_authorID d);
     Product.createdAt := Product.createdAt p;
     Product.updatedAt := t |}.

(** Modelled from the spec: the store client's [product.findMany] (the
    client and the schema are not among the sources): all records, each
    under the selection; an empty store gives the empty sequence. *)
Definition findMany (sel : Select) : M value := fun s =>
  (Ok (VArr (map (fun p => VObj (project_product s sel p)) (rows_of (products s)))), s).

(** Modelled from the spec: the store client's [product.findUnique]: the
    record under the selection, or [null] when no record has that ID. *)
Definition findUnique (ID : Z) (sel : Select) : M value := fun s =>
  (Ok (match products s !! ID with
       | Some p => VObj (project_product s sel p)
       | None => VNull
       end), s).

(** Modelled from the spec: the store client's [product.create]: fails
    with [ReferentialIntegrityError] if the author does not exist;
    otherwise persists a new record with store-assigned ID and
    timestamps and returns it under the selection. *)
Definition create (d : create_data) (sel : Select) : M value := fun s =>
  match authors s !! c_authorID d with
  | None => (Err ReferentialIntegrityError, s)
  | Some _ =>
      let p := {| Product.ID := nextProductID s;
                  Product.title := c_title d;
                  Product.isFiction := c_isFiction d;
                  Product.datePublish := c_datePublish d;
                  Product.authorID := c_authorID d;
                  Product.createdAt := now s;
                  Product.updatedAt := now s |} in
      let s' := {| authors := authors s;
                   products := <[nextProductID s := p]> (products s);
                   nextAuthorID := nextAuthorID s;
                   nextProductID := nextProductID s + 1;
                   now := now s + 1 |} in
      (Ok (VObj (project_product s' sel p)), s')
  end.

(** Modelled from the spec: the store client's [product.update]: fails
    with [NotFoundError] if the ID does not exist and with
    [ReferentialIntegrityError] if an updated [authorID] does not exist;
    otherwise applies only the fields present in the data, assigns
    [updatedAt], and returns the updated record under the selection. *)
Definition update (ID : Z) (d : update_data) (sel : Select) : M value := fun s =>
  match products s !! ID with
  | None => (Err NotFoundError, s)
  | Some p =>
      if dangling s (u_authorID d)
      then (Err ReferentialIntegrityError, s)
      else
        let p' := apply d (now s) p in
        let s' := {| authors := authors s;
                     products := <[ID := p']> (products s);
                     nextAuthorID := nextAuthorID s;
                     nextProductID := nextProductID s;
                     now := now s + 1 |} in
        (Ok (VObj (project_product s' sel p')), s')
  end.

(** Modelled from the spec: the store client's [product.delete]: fails
    with [NotFoundError] if the ID does not exist; otherwise removes the
    record. Like the other writes it yields the record it touched; no
    selection is passed, so under every scalar column. *)
Definition delete (ID : Z) : M value := fun s =>
  match products s !! ID with
  | None => (Err NotFoundError, s)
  | Some p =>
      (Ok (VObj (project_product s product_columns p)),
       {| authors := authors s;
          products := base.delete ID (products s);
          nextAuthorID := nextAuthorID s;
          nextProductID := nextProductID s;
          now := now s |})
  end.
End product.

End db.

(** ** The Author service *)

Module AuthorService.

Definition selectFields : Select :=
  SField "ID" (SField "firstName" (SField "lastName"
    (SField "createdAt" (SField "updatedAt" SNil)))).

Definition getAuthors : M value :=
  db.author.findMany selectFields.

Definition getAuthorById (ID : Z) : M value :=
  db.author.findUnique ID selectFields.

Definition createAuthor (author : Author.input) : M value :=
  let firstName := Author.i_firstName author in
  let lastName := Author.i_lastName author in
  db.author.create
    {| db.author.c_firstName := firstName; db.author.c_lastName := lastName |}
    selectFields.

(** [const { firstName, lastName } = author] reads [undefined] for a field
    that is absent, and a key of [data] whose value is [undefined] is a key
    that is not there. *)
Definition updateAuthorById (ID : Z) (author : Author.update_input) : M value :=
  let firstName := Author.u_firstName author in
  let lastName := Author.u_lastName author in
  db.author.update ID
    {| db.author.u_firstName := firstName;
       db.author.u_lastName := lastName |}
    selectFields.

(** [await db.author.delete(...)]; the function itself returns nothing. *)
Definition deleteAuthorById (ID : Z) : M value :=
  _ ← db.author.delete ID; mret VUndefined.

End AuthorService.

(** ** The Product query builder *)

Module ProductQueryBuilder.

Definition selectFields : Select :=
  SField "ID" (SField "title" (SField "isFiction" (SField "datePublish"
    (SRel "author"
       (SField "ID" (SField "firstName" (SField "lastName"
          (SField "createdAt" (SField "updatedAt" SNil)))))
    (SField "createdAt" (SField "updatedAt" SNil)))))).

Definition findAll : M value :=
  db.product.findMany selectFields.

Definition findById (ID : Z) : M value :=
  db.product.findUnique ID selectFields.

Definition create `{DateParse} (data : Product.ProductCreateData) : M value :=
  let parseDate := new_Date (Product.c_datePublish data) in
  db.product.create
    {| db.product.c_title := Product.c_title data;
       db.product.c_isFiction := Product.c_isFiction data;
       db.product.c_datePublish := parseDate;
       db.product.c_authorID := Product.c_authorID data |}
    selectFields.

(** [updateData] starts empty and receives the key of every field of
    [data] that is not [undefined]. *)
Definition update `{DateParse} (ID : Z) (data : Product.ProductUpdateData) : M value :=
  let updateData :=
    {| db.product.u_title := None; db.product.u_isFiction := None;
       db.product.u_datePublish := None; db.product.u_authorID := None |} in
  let updateData :=
    match Product.u_title data with
    | Some title =>
        {| db.product.u_title := Some title;
           db.product.u_isFiction := db.product.u_isFiction updateData;
           db.product.u_datePublish := db.product.u_datePublish updateData;
           db.product.u_authorID := db.product.u_authorID updateData |}
    | None => updateData
    end in
  let updateData :=
    match Product.u_isFiction data with
    | Some isFiction =>
        {| db.product.u_title := db.product.u_title updateData;
           db.product.u_isFiction := Some isFiction;
           db.product.u_datePublish := db.product.u_datePublish updateData;
           db.product.u_authorID := db.product.u_authorID updateData |}
    | None => updateData
    end in
  let updateData :=
    match Product.u_datePublish data with
    | Some datePublish =>
        {| db.product.u_title := db.product.u_title updateData;
           db.product.u_isFiction := db.product.u_isFiction updateData;
           db.product.u_datePublish := Some (new_Date datePublish);
           db.product.u_authorID := db.product.u_authorID updateData |}
    | None => updateData
    end in
  let updateData :=
    match Product.u_authorID data with
    | Some authorID =>
        {| db.product.u_title := db.product.u_title updateData;
           db.product.u_isFiction := db.product.u_isFiction updateData;
           db.product.u_datePublish := db.product.u_datePublish updateData;
           db.product.u_authorID := Some authorID |}
    | None => updateData
    end in
  db.product.update ID updateData selectFields.

Definition delete (ID : Z) : M value :=
  db.product.delete ID.

End ProductQueryBuilder.

(** ** The Product use cases *)

(** An instance of the query builder, as a use case holds it. *)
Record Builder := mk_builder {
  b_findAll : M value;
  b_findById : Z -> M value;
  b_create : Product.ProductCreateData -> M value;
  b_update : Z -> Product.ProductUpdateData -> M value;
  b_delete : Z -> M value
}.

(** [new ProductQueryBuilder()]. *)
Definition new_ProductQueryBuilder `{DateParse} : Builder :=
  {| b_findAll := ProductQueryBuilder.findAll;
     b_findById := ProductQueryBuilder.findById;
     b_create := ProductQueryBuilder.create;
     b_update := ProductQueryBuilder.update;
     b_delete := ProductQueryBuilder.delete |}.

Module GetProductsUsecase.
Record t := mk { builder : Builder }.
(** [this.builder = builder || new ProductQueryBuilder()]. *)
Definition new `{DateParse} (builder : option Builder) : t :=
  mk (default new_ProductQueryBuilder builder).
Definition execute (this : t) : M value :=
  b_findAll (builder this).
End GetProductsUsecase.

Module GetProductByIdUsecase.
Record t := mk { builder : Builder }.
Definition new `{DateParse} (builder : option Builder) : t :=
  mk (default new_ProductQueryBuilder builder).
Definition execute (this : t) (ID : Z) : M value :=
  b_findById (builder this) ID.
End GetProductByIdUsecase.

Module CreateProductUsecase.
Record t := mk { builder : Builder }.
Definition new `{DateParse} (builder : option Builder) : t :=
  mk (default new_ProductQueryBuilder builder).
Definition execute (this : t) (data : Product.ProductCreateData) : M value :=
  b_create (builder this) data.
End CreateProductUsecase.

Module UpdateProductByIdUsecase.
Record t := mk { builder : Builder }.
Definition new `{DateParse} (builder : option Builder) : t :=
  mk (default new_ProductQueryBuilder builder).
Definition execute (this : t) (ID : Z) (data : Product.ProductUpdateData) : M value :=
  b_update (builder this) ID data.
End UpdateProductByIdUsecase.

Module DeleteProductByIdUsecase.
Record t := mk { builder : Builder }.
Definition new `{DateParse} (builder : option Builder) : t :=
  mk (default new_ProductQueryBuilder builder).
(** [await this.builder.delete(ID)] with no [return]: the awaited value is
    dropped and the call yields [undefined]. *)
Definition execute (this : t) (ID : Z) : M value :=
  _ ← b_delete (builder this) ID; mret VUndefined.
End DeleteProductByIdUsecase.

(** ** A date parser for the ISO date-only form

    [YYYY-MM-DD] reads as midnight UTC of that day; this instance reports any
    other string as invalid. It serves the examples; the theorems hold for
    every parser. *)

Definition digit_of (c : Ascii.ascii) : option Z :=
  let n := Z.of_N (Ascii.N_of_ascii c) in
  if (48 <=? n) && (n <=? 57) then Some (n - 48) else None.

Fixpoint number_of (acc : Z) (cs : list Ascii.ascii) : option Z :=
  match cs with
  | [] => Some acc
  | c :: rest => d ← digit_of c; number_of (10 * acc + d) rest
  end.

(** Days from 1970-01-01 to the civil date [y-m-d]. *)
Definition days_from_civil (y m d : Z) : Z :=
  let y' := if m <=? 2 then y - 1 else y in
  let era := y' / 400 in
  let yoe := y' - era * 400 in
  let mp := (m + 9) mod 12 in
  let doy := (153 * mp + 2) / 5 + d - 1 in
  let doe := yoe * 365 + yoe / 4 - yoe / 100 + doy in
  era * 146097 + doe - 719468.

Definition days_in_month (y m : Z) : Z :=
  if m =? 2 then
    (if ((y mod 4 =? 0) && negb (y mod 100 =? 0)) || (y mod 400 =? 0) then 29 else 28)
  else if (m =? 4) || (m =? 6) || (m =? 9) || (m =? 11) then 30 else 31.

Definition parse_iso_date (str : string) : DateValue :=
  match String.list_ascii_of_string str with
  | [y1; y2; y3; y4; dash1; m1; m2; dash2; d1; d2] =>
      if Ascii.eqb dash1 (Ascii.ascii_of_nat 45) && Ascii.eqb dash2 (Ascii.ascii_of_nat 45) then
        match number_of 0 [y1; y2; y3; y4], number_of 0 [m1; m2], number_of 0 [d1; d2] with
        | Some y, Some m, Some d =>
            if (1 <=? m) && (m <=? 12) && (1 <=? d) && (d <=? days_in_month y m)
            then ValidDate (days_from_civil y m d * 86400000)
            else InvalidDate
        | _, _, _ => InvalidDate
        end
      else InvalidDate
  | _ => InvalidDate
  end.

#[export] Instance iso_date_parse : DateParse := parse_iso_date.

(** ** A sample store *)

Definition jane : Author.t :=
  {| Author.ID := 1; Author.firstName := "Jane"; Author.lastName := "Doe";
     Author.createdAt := 1000; Author.updatedAt := 1000 |}.

Definition book : Product.row :=
  {| Product.ID := 1; Product.title := "Book"; Product.isFiction := true;
     Product.datePublish := ValidDate 1704067200000; Product.authorID := 1;
     Product.createdAt := 1001; Product.updatedAt := 1001 |}.

Definition empty_store : Store :=
  {| authors := ∅; products := ∅; nextAuthorID := 1; nextProductID := 1; now := 1000 |}.

Definition store1 : Store :=
  {| authors := {[ 1 := jane ]}; products := {[ 1 := book ]};
     nextAuthorID := 2; nextProductID := 2; now := 1002 |}.

Definition sample_input : Author.input :=
  {| Author.i_firstName := "Janet"; Author.i_lastName := "Roe";
     Author.i_createdAt := 0; Author.i_updatedAt := 0 |}.

(** The body [{ firstName: "Janet" }]. *)
Definition first_name_only : Author.update_input :=
  {| Author.u_firstName := Some "Janet"%string; Author.u_lastName := None;
     Author.u_createdAt := None; Author.u_updatedAt := None |}.

Definition john : Author.t :=
  {| Author.ID := 2; Author.firstName := "John"; Author.lastName := "Roe";
     Author.createdAt := 1002; Author.updatedAt := 1002 |}.

(** The sample store with a second author, who has no product. *)
Definition store2 : Store :=
  {| authors := {[ 1 := jane; 2 := john ]}; products := {[ 1 := book ]};
     nextAuthorID := 3; nextProductID := 2; now := 1003 |}.

(** ** The Author router *)

(** [ToBoolean]: what [if] and [!] see in a value. *)
Definition ToBoolean (v : value) : bool :=
  match v with
  | VUndefined | VNull => false
  | VBool b => b
  | VNum n => negb (n =? 0)
  | VStr str => negb (String.eqb str "")
  | VDate _ | VObj _ | VArr _ | VFun _ => true
  end.

Record Request := mk_request {
  params_id : string;
  body : value
}.

Record Response := mk_response {
  status : Z;
  json : value
}.

(** [body(field).isString()]. *)
Definition isString (v : value) : bool :=
  match v with
  | VStr _ => true
  | _ => false
  end.

(** The object that [validationResult(request)] returns, for a handler
    registered behind the given validation chains: it holds one error per
    field of the body that fails its check. *)
Record Result := mk_result { errors_of : list value }.

Definition validationResult (chains : list (string * (value -> bool)))
    (request : Request) : Result :=
  mk_result
    (omap (fun chain : string * (value -> bool) =>
             if chain.2 (get chain.1 (body request)) then None
             else Some (VObj [("type"%string, VStr "field");
                              ("msg"%string, VStr "Invalid value");
                              ("path"%string, VStr chain.1);
                              ("location"%string, VStr "body")]))
          chains).

(** [errors.isEmpty()], the call. *)
Definition isEmpty_call (errors : Result) : value :=
  VBool (bool_decide (errors_of errors = [])).

(** [errors.isEmpty], the property read: the method itself. *)
Definition isEmpty_ref (errors : Result) : value :=
  VFun "isEmpty".

(** [errors.array()]. *)
Definition array_call (errors : Result) : value :=
  VArr (errors_of errors).

(** [parseInt(str, 10)]: leading blanks, an optional sign, then the longest
    run of digits; [None] is NaN. *)
Fixpoint skip_blanks (cs : list Ascii.ascii) : list Ascii.ascii :=
  match cs with
  | c :: rest =>
      let n := Ascii.nat_of_ascii c in
      if ((n =? 32) || (n =? 9) || (n =? 10) || (n =? 13))%nat
      then skip_blanks rest else cs
  | [] => []
  end.

Fixpoint digits_prefix (acc : option Z) (cs : list Ascii.ascii) : option Z :=
  match cs with
  | c :: rest =>
      match digit_of c with
      | Some d => digits_prefix (Some (10 * default 0 acc + d)) rest
      | None => acc
      end
  | [] => acc
  end.

Definition parseInt (str : string) : option Z :=
  match skip_blanks (String.list_ascii_of_string str) with
  | c :: rest =>
      if (Ascii.nat_of_ascii c =? 45)%nat then Z.opp <$> digits_prefix None rest
      else if (Ascii.nat_of_ascii c =? 43)%nat then digits_prefix None rest
      else digits_prefix None (c :: rest)
  | [] => None
  end.

Section AuthorRouter.
(** The service as the router calls it: with the parsed path parameter,
    which may be NaN, and with the body of the request as it came. *)
Variable createAuthor : value -> M value.
Variable updateAuthorById : option Z -> value -> M value.
(** [error.message]. *)
Variable message : StoreError -> string.

Definition name_chains : list (string * (value -> bool)) :=
  [("firstName"%string, isString); ("lastName"%string, isString)].

(** The handler of [POST /]. *)
Definition post (request : Request) (s : Store) : Response * Store :=
  let errors := validationResult name_chains request in
  if negb (ToBoolean (isEmpty_call errors)) then
    ({| status := 400; json := VObj [("errors"%string, array_call errors)] |}, s)
  else
    let author := body request in
    match createAuthor author s with
    | (Ok newAuthor, s') => ({| status := 201; json := newAuthor |}, s')
    | (Err error, s') => ({| status := 500; json := VStr (message error) |}, s')
    end.

(** What the handler of [PUT /:id] does after its validation test. *)
Definition put_after_validation (request : Request) (s : Store) : Response * Store :=
  let ID := parseInt (params_id request) in
  let author := body request in
  match updateAuthorById ID author s with
  | (Ok updatedAuthor, s') => ({| status := 201; json := updatedAuthor |}, s')
  | (Err error, s') => ({| status := 500; json := VStr (message error) |}, s')
  end.

(** The handler of [PUT /:id]. *)
Definition put (request : Request) (s : Store) : Response * Store :=
  let errors := validationResult name_chains request in
  if negb (ToBoolean (isEmpty_ref errors)) then
    ({| status := 400; json := VObj [("errors"%string, array_call errors)] |}, s)
  else put_after_validation request s.

End AuthorRouter.

(** A request for the record 1. *)
Definition request1 : Request := {| params_id := "1"; body := VUndefined |}.

(** ** The other handlers of the routers *)

(** A call [f(ID)] whose [ID] comes out of [parseInt]: [nan] is what the call
    does on NaN, which the sources leave to the store client. *)
Definition on_parsed {A : Type} (nan : M A) (f : Z -> M A) (ID : option Z) : M A :=
  match ID with
  | Some n => f n
  | None => nan
  end.

(** [body(field).check().optional()]: an absent field passes. *)
Definition optional (check : value -> bool) (v : value) : bool :=
  match v with
  | VUndefined => true
  | _ => check v
  end.

Section Handlers.
Context `{DateParse}.
Variable nan : M value.
Variable message : StoreError -> string.

(** [authorRouter.get('/')]. *)
Definition author_get_all (request : Request) (s : Store) : Response * Store :=
  match AuthorService.getAuthors s with
  | (Ok found, s') => ({| status := 200; json := found |}, s')
  | (Err error, s') => ({| status := 500; json := VStr (message error) |}, s')
  end.

(** [authorRouter.get('/:id')]. *)
Definition author_get_one (request : Request) (s : Store) : Response * Store :=
  let ID := parseInt (params_id request) in
  match on_parsed nan AuthorService.getAuthorById ID s with
  | (Ok author, s') =>
      if ToBoolean author then ({| status := 200; json := author |}, s')
      else ({| status := 404; json := VStr "Author not found" |}, s')
  | (Err error, s') => ({| status := 500; json := VStr (message error) |}, s')
  end.

(** [authorRouter.delete('/:id')]. *)
Definition author_delete (request : Request) (s : Store) : Response * Store :=
  let ID := parseInt (params_id request) in
  match on_parsed nan AuthorService.deleteAuthorById ID s with
  | (Ok _, s') => ({| status := 200; json := VStr "Author has been deleted" |}, s')
  | (Err error, s') => ({| status := 500; json := VStr (message error) |}, s')
  end.

(** [productRouter.get('/')]. *)
Definition product_get_all (request : Request) (s : Store) : Response * Store :=
  let usecase := GetProductsUsecase.new None in
  match GetProductsUsecase.execute usecase s with
  | (Ok found, s') => ({| status := 200; json := found |}, s')
  | (Err error, s') => ({| status := 500; json := VStr (message error) |}, s')
  end.

(** [productRouter.get('/:id')]. *)
Definition product_get_one (request : Request) (s : Store) : Response * Store :=
  let ID := parseInt (params_id request) in
  let usecase := GetProductByIdUsecase.new None in
  match on_parsed nan (GetProductByIdUsecase.execute usecase) ID s with
  | (Ok product, s') =>
      if ToBoolean product then ({| status := 200; json := product |}, s')
      else ({| status := 404; json := VStr "Product not found" |}, s')
  | (Err error, s') => ({| status := 500; json := VStr (message error) |}, s')
  end.

(** [productRouter.delete('/:id')]. *)
Definition product_delete (request : Request) (s : Store) : Response * Store :=
  let ID := parseInt (params_id request) in
  let usecase := DeleteProductByIdUsecase.new None in
  match on_parsed nan (DeleteProductByIdUsecase.execute usecase) ID s with
  | (Ok _, s') => ({| status := 200; json := VStr "Product has been deleted" |}, s')
  | (Err error, s') => ({| status := 500; json := VStr (message error) |}, s')
  end.

End Handlers.

Section ProductWrites.
(** The checks of the validator library on a field, and the use cases as the
    router calls them: with the body of the request as it came. *)
Variables isBoolean isDate isInt : value -> bool.
Variable execute_create : value -> M value.
Variable execute_update : option Z -> value -> M value.
Variable message : StoreError -> string.

Definition create_chains : list (string * (value -> bool)) :=
  [("title"%string, isString); ("isFiction"%string, isBoolean);
   ("datePublish"%string, isDate); ("datePublish"%string, isDate);
   ("authorID"%string, isInt)].

Definition update_chains : list (string * (value -> bool)) :=
  [("title"%string, optional isString); ("isFiction"%string, optional isBoolean);
   ("datePublish"%string, optional isDate); ("authorID"%string, optional isInt)].

(** [productRouter.post('/')]. *)
Definition product_post (request : Request) (s : Store) : Response * Store :=
  let errors := validationResult create_chains request in
  if negb (ToBoolean (isEmpty_call errors)) then
    ({| status := 400; json := VObj [("errors"%string, array_call errors)] |}, s)
  else
    match execute_create (body request) s with
    | (Ok newProduct, s') => ({| status := 201; json := newProduct |}, s')
    | (Err error, s') => ({| status := 500; json := VStr (message error) |}, s')
    end.

(** [productRouter.put('/:id')]. *)
Definition product_put (request : Request) (s : Store) : Response * Store :=
  let errors := validationResult update_chains request in
  if negb (ToBoolean (isEmpty_call errors)) then
    ({| status := 400; json := VObj [("errors"%string, array_call errors)] |}, s)
  else
    let ID := parseInt (params_id request) in
    match execute_update ID (body request) s with
    | (Ok updatedProduct, s') => ({| status := 201; json := updatedProduct |}, s')
    | (Err error, s') => ({| status := 500; json := VStr (message error) |}, s')
    end.

End ProductWrites.

(** Two update inputs in sequence as one: a field of the later input wins. *)
Definition merge_update (first second : Product.ProductUpdateData)
    : Product.ProductUpdateData :=
  {| Product.u_title := Product.u_title second ∪ Product.u_title first;
     Product.u_isFiction := Product.u_isFiction second ∪ Product.u_isFiction first;
     Product.u_datePublish := Product.u_datePublish second ∪ Product.u_datePublish first;
     Product.u_authorID := Product.u_authorID second ∪ Product.u_authorID first |}.

(** ** Predicates of the statements *)

(** Every row sits under its own ID, every product references an author of
    the store, and the ID counters are ahead of every stored ID. *)
Record store_wf (s : Store) : Prop := mk_wf {
  wf_product_key : ∀ id p, products s !! id = Some p -> Product.ID p = id;
  wf_author_key : ∀ id a, authors s !! id = Some a -> Author.ID a = id;
  wf_foreign_key : ∀ id p, products s !! id = Some p ->
                     is_Some (authors s !! Product.authorID p);
  wf_next_product : ∀ id, is_Some (products s !! id) -> id < nextProductID s;
  wf_next_author : ∀ id, is_Some (authors s !! id) -> id < nextAuthorID s
}.

(** A value that is a [ProductRead]: exactly its seven entries, the nested
    author with exactly the five entries of [Author]. *)
Definition is_ProductRead (v : value) : Prop :=
  ∃ r : Product.ProductRead, v = Product.to_value r.

Definition read_of (p : Product.row) (a : Author.t) : Product.ProductRead :=
  {| Product.r_ID := Product.ID p;
     Product.r_title := Product.title p;
     Product.r_isFiction := Product.isFiction p;
     Product.r_datePublish := Product.datePublish p;
     Product.r_author := a;
     Product.r_createdAt := Product.createdAt p;
     Product.r_updatedAt := Product.updatedAt p |}.

(** The update [upd] run with [input] keeps [field] of whatever record it
    targets: the field is absent from that input. *)
Definition leaves_untouched {Input Row F : Type}
    (upd : Z -> Input -> M value) (table : Store -> gmap Z Row)
    (field : Row -> F) (input : Input) : Prop :=
  ∀ s ID r, table s !! ID = Some r ->
    ∃ v s' r', upd ID input s = (Ok v, s') ∧ table s' !! ID = Some r' ∧
               field r' = field r.

(** The empty partial input [{}]. *)
Definition empty_update : Product.ProductUpdateData :=
  {| Product.u_title := None; Product.u_isFiction := None;
     Product.u_datePublish := None; Product.u_authorID := None |}.

(** * Properties *)

(** ** Sum to n: the three functions agree *)

Section SumToNProofs.
Import SumToN.

Lemma twice_half_consecutive (k : Z) : 2 * (k * (k + 1) / 2) = k * (k + 1).
Proof.
  symmetry. apply Z.div_exact; [lia |].
  destruct (Z.Even_or_Odd k) as [[q ->] | [q ->]].
  - replace (2 * q * (2 * q + 1)) with (q * (2 * q + 1) * 2) by ring.
    apply Z.mod_mul; lia.
  - replace ((2 * q + 1) * (2 * q + 1 + 1)) with ((2 * q + 1) * (q + 1) * 2) by ring.
    apply Z.mod_mul; lia.
Qed.

(** Integers of magnitude up to 2^53 are numbers as they are. *)
Lemma round_magnitude_exact (a : Z) : 0 <= a <= 2 ^ 53 -> round_magnitude a = a.
Proof.
  intros [Hlo Hhi]. destruct (Z.eq_dec a (2 ^ 53)) as [-> | Hne]; [reflexivity |].
  unfold round_magnitude.
  assert (Hlog : Z.log2 a - 52 <= 0).
  { destruct (Z.eq_dec a 0) as [-> | Hpos]; [simpl; lia |].
    assert (Z.log2 a < 53) by (apply Z.log2_lt_pow2; lia). lia. }
  apply Z.leb_le in Hlog. by rewrite Hlog.
Qed.

Lemma round_double_exact (z : Z) : Z.abs z <= 2 ^ 53 -> round_double z = Num z.
Proof.
  intros Hz. unfold round_double.
  rewrite round_magnitude_exact by lia.
  assert (Hbig : 2 ^ 53 < 2 ^ 1024) by (apply Z.pow_lt_mono_r; lia).
  assert (Hno : (2 ^ 1024 <=? Z.abs z) = false) by (apply Z.leb_gt; lia).
  rewrite Hno. f_equal. lia.
Qed.

(** From 2^53 on every number is even. *)
Lemma round_double_even_above (z m : Z) :
  2 ^ 53 <= Z.abs z -> round_double z = Num m -> Z.even m = true.
Proof.
  intros Hz. unfold round_double, round_magnitude.
  assert (Hlog : 53 <= Z.log2 (Z.abs z)) by (apply Z.log2_le_pow2; lia).
  destruct (Z.leb_spec (Z.log2 (Z.abs z) - 52) 0) as [Hle | Hgt]; [lia |].
  set (e := Z.log2 (Z.abs z) - 52) in *.
  destruct (_ <=? _); [by destruct (z <? 0) |].
  intros [= <-].
  replace (2 ^ e) with (2 * 2 ^ (e - 1)).
  - rewrite !Z.even_mul. simpl. by rewrite !orb_true_r.
  - rewrite <- Z.pow_succ_r by lia. f_equal. lia.
Qed.

Lemma round_double_even (z m : Z) :
  Z.even z = true -> round_double z = Num m -> Z.even m = true.
Proof.
  intros Heven Hround. destruct (Z.le_gt_cases (2 ^ 53) (Z.abs z)) as [Hbig | Hsmall].
  - by apply (round_double_even_above z m).
  - rewrite round_double_exact in Hround by lia. by injection Hround as <-.
Qed.

(** The closed formula divides an even number by two, whatever integer [n]
    is: [halve] is exact wherever the program applies it. *)
Lemma sum_to_n_c_divides_even (n : Z) :
  match mul (Num n) (add (Num n) (Num 1)) with
  | Num m => Z.even m = true
  | _ => True
  end.
Proof.
  simpl. destruct (round_double (n + 1)) as [n' | | |] eqn:Hsucc; simpl;
    try (destruct (n =? 0); [done | by destruct (n <? 0)]); [].
  destruct (round_double (n * n')) as [m | | |] eqn:Hprod; [| done..].
  apply (round_double_even (n * n') m); [| exact Hprod].
  destruct (Z.le_gt_cases (2 ^ 53) (Z.abs (n + 1))) as [Hbig | Hsmall].
  - rewrite Z.even_mul, (round_double_even_above (n + 1) n' Hbig Hsucc).
    apply orb_true_r.
  - rewrite round_double_exact in Hsucc by lia. injection Hsucc as <-.
    pose proof (twice_half_consecutive n) as H2. rewrite <- H2.
    by rewrite Z.even_mul.
Qed.

(** The rounding is the kernel's: sums and products of sample integers, some
    exact, some rounded down, up, and on a tie. *)
Example rounding_as_binary64 :
  forallb (fun ab : Z * Z => as_binary64 ab.1 ab.2)
    [(0, 0); (1, 2); (-7, 5); (134217729, 134217730); (-134217730, -134217729);
     (9007199254740992, 1); (9007199254740992, 2); (9007199254740992, 3);
     (9007199254740991, 9007199254740991); (-9007199254740991, 9007199254740989);
     (9007199254740992, -1); (94906267, 94906266); (4503599627370497, 6);
     (3002399751580331, 3); (9007199254740992, 9007199254740992)] = true.
Proof. vm_compute. reflexivity. Qed.

(** The same on three hundred drawn pairs, and more than a hundred of their
    products are rounded. *)
Example rounding_as_binary64_drawn :
  forallb (fun ab : Z * Z => as_binary64 ab.1 ab.2) (sample_pairs 300 1) = true /\
  (100 <= length (List.filter (fun ab : Z * Z => (2 ^ 53 <? Z.abs (ab.1 * ab.2))%Z)
                              (sample_pairs 300 1)))%nat.
Proof. split; [vm_compute; reflexivity |]. vm_compute. lia. Qed.



Lemma sum_to_n_c_exact (n : Z) :
  Z.abs (n * (n + 1)) <= 2 ^ 53 -> Z.abs (n + 1) <= 2 ^ 53 ->
  sum_to_n_c (Num n) = Num (n * (n + 1) / 2).
Proof.
  intros Hprod Hsucc. unfold sum_to_n_c. simpl.
  rewrite (round_double_exact _ Hsucc). simpl.
  by rewrite (round_double_exact _ Hprod).
Qed.





End SumToNProofs.

(** ** The date parser on samples *)

Example parse_2024_01_01 : Date_parse "2024-01-01" = ValidDate 1704067200000.
Proof. reflexivity. Qed.

Example parse_not_a_date : Date_parse "soon" = InvalidDate.
Proof. reflexivity. Qed.

(** ** Missing records and missing authors *)

Section Gateway.
Context `{DateParse}.

Lemma update_data_authorID (data : Product.ProductUpdateData) :
  ∃ d, ∀ ID, ProductQueryBuilder.update ID data
             = db.product.update ID d ProductQueryBuilder.selectFields
       ∧ db.product.u_title d = Product.u_title data
       ∧ db.product.u_isFiction d = Product.u_isFiction data
       ∧ db.product.u_datePublish d = new_Date <$> Product.u_datePublish data
       ∧ db.product.u_authorID d = Product.u_authorID data.
Proof.
  destruct data as [[t|] [f|] [dp|] [a|]]; eexists; intros ID;
    (split; [reflexivity | repeat split]).
Qed.

(** C5: for an ID that no record has, find-by-id answers [null] without
    failing, and update and delete fail with [NotFoundError]; so for
    products and for authors, and the store stays as it was. *)
Theorem missing_id_not_found (s : Store) (ID : Z) :
  (products s !! ID = None ->
     ProductQueryBuilder.findById ID s = (Ok VNull, s) ∧
     (∀ data, ProductQueryBuilder.update ID data s = (Err NotFoundError, s)) ∧
     ProductQueryBuilder.delete ID s = (Err NotFoundError, s)) ∧
  (authors s !! ID = None ->
     AuthorService.getAuthorById ID s = (Ok VNull, s) ∧
     (∀ author, AuthorService.updateAuthorById ID author s = (Err NotFoundError, s)) ∧
     AuthorService.deleteAuthorById ID s = (Err NotFoundError, s)).
Proof.
  split; intros Hnone.
  - repeat split.
    + unfold ProductQueryBuilder.findById, db.product.findUnique. by rewrite Hnone.
    + intros data. destruct (update_data_authorID data) as [d Hd].
      destruct (Hd ID) as [-> _]. unfold db.product.update. by rewrite Hnone.
    + unfold ProductQueryBuilder.delete, db.product.delete. by rewrite Hnone.
  - repeat split.
    + unfold AuthorService.getAuthorById, db.author.findUnique. by rewrite Hnone.
    + intros author. unfold AuthorService.updateAuthorById, db.author.update.
      by rewrite Hnone.
    + unfold AuthorService.deleteAuthorById, mbind, M_bind, db.author.delete.
      by rewrite Hnone.
Qed.

(** C3, as the store has it: a create whose [authorID] names no author, and
    an update of an existing product whose new [authorID] names no author,
    fail with [ReferentialIntegrityError] and leave the store as it was. *)
Theorem dangling_author_rejected (s : Store) :
  (∀ data, authors s !! Product.c_authorID data = None ->
     ProductQueryBuilder.create data s = (Err ReferentialIntegrityError, s)) ∧
  (∀ ID data a, is_Some (products s !! ID) ->
     Product.u_authorID data = Some a -> authors s !! a = None ->
     ProductQueryBuilder.update ID data s = (Err ReferentialIntegrityError, s)).
Proof.
  split.
  - intros data Hnone. unfold ProductQueryBuilder.create, db.product.create.
    simpl. by rewrite Hnone.
  - intros ID data a [p Hp] Ha Hnone.
    destruct (update_data_authorID data) as [d Hd].
    destruct (Hd ID) as (-> & _ & _ & _ & Hau).
    unfold db.product.update. rewrite Hp, Hau, Ha. simpl.
    by rewrite bool_decide_eq_true_2.
Qed.

End Gateway.

Lemma dangling_author_rejected_witness :
  authors store1 !! 99 = None ∧ is_Some (products store1 !! 1) ∧
  ProductQueryBuilder.create (Product.mk_create "T" false (DString "2024-01-01") 99) store1
    = (Err ReferentialIntegrityError, store1) ∧
  ProductQueryBuilder.update 1 (Product.mk_update None None None (Some 99)) store1
    = (Err ReferentialIntegrityError, store1).
Proof.
  assert (Hnone : authors store1 !! 99 = None) by reflexivity.
  assert (Hsome : is_Some (products store1 !! 1)) by (eexists; reflexivity).
  split; [exact Hnone |]. split; [exact Hsome |]. split.
  - apply (proj1 (dangling_author_rejected store1)). exact Hnone.
  - apply (proj2 (dangling_author_rejected store1) 1
             (Product.mk_update None None None (Some 99)) 99 Hsome eq_refl Hnone).
Defined.

(** The claim of C3 read for every update fails where the product is missing
    too: the missing product is reported, not the missing author. *)
Lemma dangling_author_on_missing_product :
  authors store1 !! 99 = None ∧
  ProductQueryBuilder.update 7 (Product.mk_update None None None (Some 99)) store1
    = (Err NotFoundError, store1) ∧
  ProductQueryBuilder.update 7 (Product.mk_update None None None (Some 99)) store1
    ≠ (Err ReferentialIntegrityError, store1).
Proof.
  split; [reflexivity |].
  assert (Hrun : ProductQueryBuilder.update 7
            (Product.mk_update None None None (Some 99)) store1
          = (Err NotFoundError, store1)) by reflexivity.
  split; [exact Hrun |]. rewrite Hrun. intros Heq. discriminate Heq.
Qed.

Lemma missing_id_not_found_witness :
  products store1 !! 7 = None ∧ authors store1 !! 7 = None ∧
  ProductQueryBuilder.findById 7 store1 = (Ok VNull, store1) ∧
  AuthorService.getAuthorById 7 store1 = (Ok VNull, store1).
Proof.
  assert (Hp : products store1 !! 7 = None) by reflexivity.
  assert (Ha : authors store1 !! 7 = None) by reflexivity.
  split; [exact Hp |]. split; [exact Ha |]. split.
  - apply (proj1 (missing_id_not_found store1 7) Hp).
  - apply (proj2 (missing_id_not_found store1 7) Ha).
Defined.

(** ** Store invariant *)

Lemma elem_of_rows_of {A} (m : gmap Z A) (x : A) :
  x ∈ rows_of m ↔ ∃ id, m !! id = Some x.
Proof.
  unfold rows_of. rewrite list_elem_of_fmap. split.
  - intros [[id y] [-> Hin]]. exists id. by apply elem_of_map_to_list.
  - intros [id Hid]. exists (id, x). split; [done |]. by apply elem_of_map_to_list.
Qed.

Lemma referencing_nonempty (s : Store) (ID pid : Z) (p : Product.row) :
  products s !! pid = Some p -> Product.authorID p = ID -> referencing s ID ≠ [].
Proof.
  intros Hp Ha Hnil.
  assert (Hin : p ∈ referencing s ID).
  { unfold referencing. apply list_elem_of_filter. split; [done |].
    apply elem_of_rows_of. eauto. }
  rewrite Hnil in Hin. by apply elem_of_nil in Hin.
Qed.

Lemma referencing_elem (s : Store) (ID : Z) (p : Product.row) :
  p ∈ referencing s ID ↔ Product.authorID p = ID ∧ ∃ pid, products s !! pid = Some p.
Proof. unfold referencing. by rewrite list_elem_of_filter, elem_of_rows_of. Qed.

Lemma empty_store_wf : store_wf empty_store.
Proof.
  split; simpl; intros id; [intros p | intros a | intros p | |];
    rewrite lookup_empty; (done || by intros [? ?]).
Qed.

Lemma store1_wf : store_wf store1.
Proof.
  split; simpl.
  - intros id p [<- <-]%lookup_singleton_Some. reflexivity.
  - intros id a [<- <-]%lookup_singleton_Some. reflexivity.
  - intros id p [<- <-]%lookup_singleton_Some. by eexists.
  - intros id [p [<- _]%lookup_singleton_Some]. lia.
  - intros id [a [<- _]%lookup_singleton_Some]. lia.
Qed.

(** C4: deleting an author that at least one product references fails with
    [ReferentialIntegrityError]; the store after the failed delete is the
    store before it, so the author and every product are as they were and
    nothing cascades. *)
Theorem delete_referenced_author_fails (s : Store) (ID pid : Z)
    (a : Author.t) (p : Product.row) :
  authors s !! ID = Some a ->
  products s !! pid = Some p -> Product.authorID p = ID ->
  ∃ s', AuthorService.deleteAuthorById ID s = (Err ReferentialIntegrityError, s') ∧
        s' = s ∧ authors s' !! ID = Some a ∧
        (∀ q, q ∈ referencing s ID -> q ∈ referencing s' ID) ∧
        products s' = products s.
Proof.
  intros Ha Hp Hfk. exists s.
  pose proof (referencing_nonempty s ID pid p Hp Hfk) as Hne.
  unfold AuthorService.deleteAuthorById, mbind, M_bind, db.author.delete.
  rewrite Ha. destruct (referencing s ID); [done |]. auto.
Qed.

Lemma delete_referenced_author_fails_witness :
  ∃ s', AuthorService.deleteAuthorById 1 store1 = (Err ReferentialIntegrityError, s') ∧
        s' = store1 ∧ authors s' !! 1 = Some jane ∧
        (∀ q, q ∈ referencing store1 1 -> q ∈ referencing s' 1) ∧
        products s' = products store1.
Proof.
  apply (delete_referenced_author_fails store1 1 1 jane book); reflexivity.
Defined.

(** The writes of the store keep the invariant. *)
Section Preservation.
Variables (s s' : Store) (r : result value).
Hypothesis Hwf : store_wf s.

Lemma author_create_wf d sel :
  db.author.create d sel s = (r, s') -> store_wf s'.
Proof.
  unfold db.author.create. intros [= _ <-]. destruct Hwf. split; simpl.
  - done.
  - intros id a [[<- <-] | [_ Ha]]%lookup_insert_Some; eauto.
  - intros id p Hp. destruct (wf_foreign_key0 id p Hp) as [a Ha].
    destruct (decide (nextAuthorID s = Product.authorID p)) as [Heq | Hne].
    + rewrite <- Heq, lookup_insert_eq. by eexists.
    + rewrite lookup_insert_ne by done. by eexists.
  - done.
  - intros id [a [[<- _] | [_ Ha]]%lookup_insert_Some]; [lia |].
    assert (id < nextAuthorID s) by eauto. lia.
Qed.

Lemma author_update_wf ID d sel :
  db.author.update ID d sel s = (r, s') -> store_wf s'.
Proof.
  unfold db.author.update. destruct (authors s !! ID) as [a0 |] eqn:Ha0;
    intros [= _ <-]; [| done]. destruct Hwf. split; simpl.
  - done.
  - intros id a [[<- <-] | [_ Ha]]%lookup_insert_Some; simpl; eauto.
  - intros id p Hp. destruct (wf_foreign_key0 id p Hp) as [a Ha].
    destruct (decide (ID = Product.authorID p)) as [Heq | Hne].
    + rewrite <- Heq, lookup_insert_eq. by eexists.
    + rewrite lookup_insert_ne by done. by eexists.
  - done.
  - intros id [a [[<- _] | [_ Ha]]%lookup_insert_Some]; eauto.
Qed.

Lemma author_delete_wf ID :
  db.author.delete ID s = (r, s') -> store_wf s'.
Proof.
  unfold db.author.delete. destruct (authors s !! ID) as [a0 |] eqn:Ha0;
    [| by intros [= _ <-]].
  destruct (referencing s ID) as [| q qs] eqn:Href; intros [= _ <-]; [| done].
  destruct Hwf. split; simpl.
  - done.
  - intros id a [_ Ha]%lookup_delete_Some. eauto.
  - intros id p Hp. destruct (wf_foreign_key0 id p Hp) as [a Ha].
    exists a. apply lookup_delete_Some. split; [| done].
    intros ->. by apply (referencing_nonempty s _ id p Hp eq_refl).
  - done.
  - intros id [a [_ Ha]%lookup_delete_Some]. eauto.
Qed.

Lemma product_create_wf d sel :
  db.product.create d sel s = (r, s') -> store_wf s'.
Proof.
  unfold db.product.create.
  destruct (authors s !! db.product.c_authorID d) as [a0 |] eqn:Ha0;
    intros [= _ <-]; [| done]. destruct Hwf. split; simpl.
  - intros id p [[<- <-] | [_ Hp]]%lookup_insert_Some; eauto.
  - done.
  - intros id p [[<- <-] | [_ Hp]]%lookup_insert_Some; simpl; eauto.
  - intros id [p [[<- _] | [_ Hp]]%lookup_insert_Some]; [lia |].
    assert (id < nextProductID s) by eauto. lia.
  - done.
Qed.

Lemma product_update_wf ID d sel :
  db.product.update ID d sel s = (r, s') -> store_wf s'.
Proof.
  unfold db.product.update. destruct (products s !! ID) as [p0 |] eqn:Hp0;
    [| by intros [= _ <-]].
  destruct (dangling s (db.product.u_authorID d)) eqn:Hdang;
    intros [= _ <-]; [done |]. destruct Hwf. split; simpl.
  - intros id p [[<- <-] | [_ Hp]]%lookup_insert_Some; simpl; eauto.
  - done.
  - intros id p [[<- <-] | [_ Hp]]%lookup_insert_Some; simpl; eauto.
    unfold dangling in Hdang. destruct (db.product.u_authorID d) as [a |]; simpl.
    + apply bool_decide_eq_false in Hdang.
      by apply not_eq_None_Some.
    + eauto.
  - intros id [p [[<- _] | [_ Hp]]%lookup_insert_Some]; eauto.
  - done.
Qed.

Lemma product_delete_wf ID :
  db.product.delete ID s = (r, s') -> store_wf s'.
Proof.
  unfold db.product.delete. destruct (products s !! ID) as [p0 |] eqn:Hp0;
    intros [= _ <-]; [| done]. destruct Hwf. split; simpl.
  - intros id p [_ Hp]%lookup_delete_Some. eauto.
  - done.
  - intros id p [_ Hp]%lookup_delete_Some. eauto.
  - intros id [p [_ Hp]%lookup_delete_Some]. eauto.
  - done.
Qed.

End Preservation.

(** ** The fixed projection *)

Lemma project_selectFields (s : Store) (p : Product.row) (a : Author.t) :
  authors s !! Product.authorID p = Some a ->
  VObj (project_product s ProductQueryBuilder.selectFields p)
  = Product.to_value (read_of p a).
Proof.
  intros Ha. unfold ProductQueryBuilder.selectFields. simpl. by rewrite Ha.
Qed.

Lemma is_ProductRead_keys (v : value) :
  is_ProductRead v ->
  keys v = ["ID"; "title"; "isFiction"; "datePublish"; "author";
            "createdAt"; "updatedAt"]%string ∧
  keys (get "author" v) = ["ID"; "firstName"; "lastName";
                           "createdAt"; "updatedAt"]%string ∧
  get "authorID" v = VUndefined ∧
  get "products" (get "author" v) = VUndefined.
Proof. intros [r ->]. repeat split. Qed.

Section Projection.
Context `{DateParse}.
Variable s : Store.
Hypothesis Hwf : store_wf s.

Lemma findAll_projected v s' :
  ProductQueryBuilder.findAll s = (Ok v, s') ->
  ∃ items, v = VArr items ∧ Forall is_ProductRead items.
Proof.
  unfold ProductQueryBuilder.findAll, db.product.findMany. intros [= <- <-].
  eexists. split; [reflexivity |].
  apply Forall_forall. intros x [p [-> Hp]]%list_elem_of_fmap.
  apply elem_of_rows_of in Hp as [id Hp].
  destruct (wf_foreign_key s Hwf id p Hp) as [a Ha].
  exists (read_of p a). by apply project_selectFields.
Qed.

Lemma findById_projected ID v s' :
  ProductQueryBuilder.findById ID s = (Ok v, s') ->
  v = VNull ∨ is_ProductRead v.
Proof.
  unfold ProductQueryBuilder.findById, db.product.findUnique. intros [= <- <-].
  destruct (products s !! ID) as [p |] eqn:Hp; [right | by left].
  destruct (wf_foreign_key s Hwf ID p Hp) as [a Ha].
  exists (read_of p a). by apply project_selectFields.
Qed.

Lemma create_projected data v s' :
  ProductQueryBuilder.create data s = (Ok v, s') -> is_ProductRead v.
Proof.
  unfold ProductQueryBuilder.create, db.product.create. simpl.
  destruct (authors s !! Product.c_authorID data) as [a |] eqn:Ha;
    intros [= <- <-].
  by eexists (Product.mk_read _ _ _ _ a _ _).
Qed.

Lemma update_projected ID data v s' :
  ProductQueryBuilder.update ID data s = (Ok v, s') -> is_ProductRead v.
Proof.
  destruct (update_data_authorID data) as [d Hd].
  destruct (Hd ID) as (-> & _ & _ & _ & Hau).
  unfold db.product.update.
  destruct (products s !! ID) as [p |] eqn:Hp; [| by intros [= ]].
  destruct (dangling s (db.product.u_authorID d)) eqn:Hdang;
    intros [= <- <-].
  assert (Hfk : is_Some (authors s !! Product.authorID (db.product.apply d (now s) p))).
  { unfold dangling in Hdang. simpl.
    destruct (db.product.u_authorID d) as [a |]; simpl.
    - apply bool_decide_eq_false in Hdang. by apply not_eq_None_Some.
    - by apply (wf_foreign_key s Hwf ID p). }
  destruct Hfk as [a Ha]. exists (read_of (db.product.apply d (now s) p) a).
  simpl in *. by rewrite Ha.
Qed.

(** C2: every product that find-all, find-by-id, create and update return
    is a [ProductRead]: the seven entries of the fixed projection, the
    nested author with exactly ID, firstName, lastName, createdAt and
    updatedAt, no [products] list under the author and no bare [authorID]. *)
Theorem product_results_projected :
  (∀ v s', ProductQueryBuilder.findAll s = (Ok v, s') ->
     ∃ items, v = VArr items ∧ Forall is_ProductRead items) ∧
  (∀ ID v s', ProductQueryBuilder.findById ID s = (Ok v, s') ->
     v = VNull ∨ is_ProductRead v) ∧
  (∀ data v s', ProductQueryBuilder.create data s = (Ok v, s') ->
     is_ProductRead v) ∧
  (∀ ID data v s', ProductQueryBuilder.update ID data s = (Ok v, s') ->
     is_ProductRead v) ∧
  (∀ v, is_ProductRead v ->
     keys v = ["ID"; "title"; "isFiction"; "datePublish"; "author";
               "createdAt"; "updatedAt"]%string ∧
     keys (get "author" v) = ["ID"; "firstName"; "lastName";
                              "createdAt"; "updatedAt"]%string ∧
     get "authorID" v = VUndefined ∧
     get "products" (get "author" v) = VUndefined).
Proof.
  split; [exact findAll_projected |].
  split; [exact findById_projected |].
  split; [exact create_projected |].
  split; [exact update_projected | exact is_ProductRead_keys].
Qed.

End Projection.

Lemma product_results_projected_witness :
  store_wf store1 ∧
  is_ProductRead
    (VObj (project_product store1 ProductQueryBuilder.selectFields book)).
Proof.
  split; [exact store1_wf |].
  destruct (product_results_projected store1 store1_wf) as (_ & Hfind & _).
  destruct (Hfind 1 _ store1 eq_refl) as [Hnull | Hread]; [discriminate Hnull | exact Hread].
Defined.

(** ** Partial updates *)

Section PartialUpdate.
Context `{DateParse}.

Lemma product_update_applies (s : Store) (ID : Z)
    (data : Product.ProductUpdateData) (p : Product.row) :
  products s !! ID = Some p ->
  dangling s (Product.u_authorID data) = false ->
  ∃ v s' p',
    ProductQueryBuilder.update ID data s = (Ok v, s') ∧
    products s' !! ID = Some p' ∧
    (∀ id, id ≠ ID -> products s' !! id = products s !! id) ∧
    authors s' = authors s ∧
    Product.title p' = default (Product.title p) (Product.u_title data) ∧
    Product.isFiction p' = default (Product.isFiction p) (Product.u_isFiction data) ∧
    Product.datePublish p'
      = default (Product.datePublish p) (new_Date <$> Product.u_datePublish data) ∧
    Product.authorID p' = default (Product.authorID p) (Product.u_authorID data) ∧
    Product.ID p' = Product.ID p ∧
    Product.createdAt p' = Product.createdAt p ∧
    Product.updatedAt p' = now s.
Proof.
  intros Hp Hdang. destruct (update_data_authorID data) as [d Hd].
  destruct (Hd ID) as (-> & Ht & Hf & Hdp & Hau).
  unfold db.product.update. rewrite Hp, Hau, Hdang.
  eexists _, _, (db.product.apply d (now s) p). split; [reflexivity |]. simpl.
  rewrite lookup_insert_eq, Ht, Hf, Hdp, Hau.
  split; [done |]. split; [| done].
  intros id Hne. by rewrite lookup_insert_ne.
Qed.

Lemma author_update_applies (s : Store) (ID : Z)
    (author : Author.update_input) (a : Author.t) :
  authors s !! ID = Some a ->
  ∃ v s' a',
    AuthorService.updateAuthorById ID author s = (Ok v, s') ∧
    authors s' !! ID = Some a' ∧
    (∀ id, id ≠ ID -> authors s' !! id = authors s !! id) ∧
    products s' = products s ∧
    Author.firstName a' = default (Author.firstName a) (Author.u_firstName author) ∧
    Author.lastName a' = default (Author.lastName a) (Author.u_lastName author) ∧
    Author.ID a' = Author.ID a ∧
    Author.createdAt a' = Author.createdAt a ∧
    Author.updatedAt a' = now s.
Proof.
  intros Ha. unfold AuthorService.updateAuthorById, db.author.update. rewrite Ha.
  eexists _, _, _. split; [reflexivity |]. simpl. rewrite lookup_insert_eq.
  split; [done |]. split; [| done].
  intros id Hne. by rewrite lookup_insert_ne.
Qed.


(** A product update can leave any one writable field alone. *)
Lemma product_update_is_partial :
  leaves_untouched ProductQueryBuilder.update products Product.title empty_update ∧
  leaves_untouched ProductQueryBuilder.update products Product.isFiction empty_update ∧
  leaves_untouched ProductQueryBuilder.update products Product.datePublish empty_update ∧
  leaves_untouched ProductQueryBuilder.update products Product.authorID empty_update.
Proof.
  repeat split; intros s ID p Hp;
    destruct (product_update_applies s ID empty_update p Hp eq_refl)
      as (v & s' & p' & Hrun & Hp' & _ & _ & Ht & Hf & Hd & Ha & _);
    exists v, s', p'; auto.
Qed.

(** So can an author update: with the name absent. *)
Lemma author_update_is_partial :
  leaves_untouched AuthorService.updateAuthorById authors Author.firstName
    Author.empty_update ∧
  leaves_untouched AuthorService.updateAuthorById authors Author.lastName
    Author.empty_update.
Proof.
  split; intros s ID a Ha;
    destruct (author_update_applies s ID Author.empty_update a Ha)
      as (v & s' & a' & Hrun & Ha' & _ & _ & Hf & Hl & _);
    exists v, s', a'; auto.
Qed.

(** C6: for products and for authors alike, an update of a stored record
    with the empty input succeeds and keeps every field of the record but
    updatedAt; every other record of either table stays as it is. *)
Theorem empty_update_keeps_fields (s : Store) (ID : Z) :
  (∀ p, products s !! ID = Some p ->
     ∃ v s' p',
       ProductQueryBuilder.update ID empty_update s = (Ok v, s') ∧
       products s' !! ID = Some p' ∧
       Product.ID p' = Product.ID p ∧
       Product.title p' = Product.title p ∧
       Product.isFiction p' = Product.isFiction p ∧
       Product.datePublish p' = Product.datePublish p ∧
       Product.authorID p' = Product.authorID p ∧
       Product.createdAt p' = Product.createdAt p ∧
       (∀ id, id ≠ ID -> products s' !! id = products s !! id) ∧
       authors s' = authors s) ∧
  (∀ a, authors s !! ID = Some a ->
     ∃ v s' a',
       AuthorService.updateAuthorById ID Author.empty_update s = (Ok v, s') ∧
       authors s' !! ID = Some a' ∧
       Author.ID a' = Author.ID a ∧
       Author.firstName a' = Author.firstName a ∧
       Author.lastName a' = Author.lastName a ∧
       Author.createdAt a' = Author.createdAt a ∧
       (∀ id, id ≠ ID -> authors s' !! id = authors s !! id) ∧
       products s' = products s).
Proof.
  split.
  - intros p Hp.
    destruct (product_update_applies s ID empty_update p Hp eq_refl)
      as (v & s' & p' & Hrun & Hp' & Hothers & Hau & Ht & Hf & Hd & Ha & Hid & Hc & _).
    exists v, s', p'. auto 12.
  - intros a Ha.
    destruct (author_update_applies s ID Author.empty_update a Ha)
      as (v & s' & a' & Hrun & Ha' & Hothers & Hpr & Hf & Hl & Hid & Hc & _).
    exists v, s', a'. auto 12.
Qed.

End PartialUpdate.


Lemma empty_update_keeps_fields_witness :
  products store1 !! 1 = Some book ∧ authors store1 !! 1 = Some jane ∧
  (∃ v s' p',
     ProductQueryBuilder.update 1 empty_update store1 = (Ok v, s') ∧
     products s' !! 1 = Some p' ∧
     Product.ID p' = Product.ID book ∧
     Product.title p' = Product.title book ∧
     Product.isFiction p' = Product.isFiction book ∧
     Product.datePublish p' = Product.datePublish book ∧
     Product.authorID p' = Product.authorID book ∧
     Product.createdAt p' = Product.createdAt book ∧
     (∀ id, id ≠ 1 -> products s' !! id = products store1 !! id) ∧
     authors s' = authors store1) ∧
  (∃ v s' a',
     AuthorService.updateAuthorById 1 Author.empty_update store1 = (Ok v, s') ∧
     authors s' !! 1 = Some a' ∧
     Author.ID a' = Author.ID jane ∧
     Author.firstName a' = Author.firstName jane ∧
     Author.lastName a' = Author.lastName jane ∧
     Author.createdAt a' = Author.createdAt jane ∧
     (∀ id, id ≠ 1 -> authors s' !! id = authors store1 !! id) ∧
     products s' = products store1).
Proof.
  split; [reflexivity |]. split; [reflexivity |]. split.
  - apply (proj1 (empty_update_keeps_fields store1 1) book). reflexivity.
  - apply (proj2 (empty_update_keeps_fields store1 1) jane). reflexivity.
Defined.

(** At one store: the update of Jane Doe with an input that names Janet Roe
    leaves Janet Roe, with only the first name it leaves Janet Doe, and with
    the empty input it leaves Jane Doe and a new updatedAt. *)
Example author_update_samples :
  (∃ v s', AuthorService.updateAuthorById 1 (Author.full sample_input) store1 = (Ok v, s') ∧
           authors s' !! 1
           = Some {| Author.ID := 1; Author.firstName := "Janet";
                     Author.lastName := "Roe";
                     Author.createdAt := 1000; Author.updatedAt := 1002 |}) ∧
  (∃ v s', AuthorService.updateAuthorById 1 first_name_only store1 = (Ok v, s') ∧
           authors s' !! 1
           = Some {| Author.ID := 1; Author.firstName := "Janet";
                     Author.lastName := "Doe";
                     Author.createdAt := 1000; Author.updatedAt := 1002 |}) ∧
  (∃ v s', AuthorService.updateAuthorById 1 Author.empty_update store1 = (Ok v, s') ∧
           authors s' !! 1
           = Some {| Author.ID := 1; Author.firstName := "Jane";
                     Author.lastName := "Doe";
                     Author.createdAt := 1000; Author.updatedAt := 1002 |}).
Proof. repeat split; eexists _, _; split; reflexivity. Qed.

(** ** Date normalization *)

Lemma get_datePublish (s : Store) (p : Product.row) :
  get "datePublish" (VObj (project_product s ProductQueryBuilder.selectFields p))
  = VDate (Product.datePublish p).
Proof. reflexivity. Qed.

Section DateNormalization.
Context `{DateParse}.

(** C7: a create or update whose [datePublish] is a string that parses to
    the time value [t] stores the date [t]; the result of the call and a
    find-by-id after it carry the date [t], a date value and not the
    string. *)
Theorem datePublish_string_normalized (s : Store) (str : string) (t : Z) :
  Date_parse str = ValidDate t ->
  (∀ data a, Product.c_datePublish data = DString str ->
     authors s !! Product.c_authorID data = Some a ->
     ∃ v s' p,
       ProductQueryBuilder.create data s = (Ok v, s') ∧
       products s' !! nextProductID s = Some p ∧
       Product.datePublish p = ValidDate t ∧
       get "datePublish" v = VDate (ValidDate t) ∧
       ∃ v', ProductQueryBuilder.findById (nextProductID s) s' = (Ok v', s') ∧
             get "datePublish" v' = VDate (ValidDate t) ∧
             get "datePublish" v' ≠ VStr str) ∧
  (∀ ID data p, products s !! ID = Some p ->
     Product.u_datePublish data = Some (DString str) ->
     dangling s (Product.u_authorID data) = false ->
     ∃ v s' p',
       ProductQueryBuilder.update ID data s = (Ok v, s') ∧
       products s' !! ID = Some p' ∧
       Product.datePublish p' = ValidDate t ∧
       get "datePublish" v = VDate (ValidDate t) ∧
       ∃ v', ProductQueryBuilder.findById ID s' = (Ok v', s') ∧
             get "datePublish" v' = VDate (ValidDate t) ∧
             get "datePublish" v' ≠ VStr str).
Proof.
  intros Hparse. split.
  - intros data a Hstr Ha.
    unfold ProductQueryBuilder.create, db.product.create. simpl.
    rewrite Ha, Hstr. simpl. rewrite Hparse.
    eexists _, _, _. split; [reflexivity |]. simpl. rewrite lookup_insert_eq.
    split; [reflexivity |]. split; [reflexivity |]. split; [reflexivity |].
    unfold ProductQueryBuilder.findById, db.product.findUnique. simpl.
    rewrite lookup_insert_eq. eexists. split; [reflexivity |].
    simpl. split; [reflexivity | discriminate].
  - intros ID data p Hp Hstr Hdang.
    destruct (product_update_applies s ID data p Hp Hdang)
      as (v & s' & p' & Hrun & Hp' & _ & _ & _ & _ & Hd & _).
    rewrite Hstr in Hd. simpl in Hd. rewrite Hparse in Hd.
    exists v, s', p'. split; [exact Hrun |]. split; [exact Hp' |].
    split; [exact Hd |].
    assert (Hv : v = VObj (project_product s' ProductQueryBuilder.selectFields p')).
    { destruct (update_data_authorID data) as [d Hdd].
      destruct (Hdd ID) as (Heq & _ & _ & _ & Hau). rewrite Heq in Hrun.
      unfold db.product.update in Hrun. rewrite Hp, Hau, Hdang in Hrun.
      injection Hrun as <- <-. simpl in Hp'. rewrite lookup_insert_eq in Hp'.
      by injection Hp' as <-. }
    split; [by rewrite Hv, get_datePublish, Hd |].
    unfold ProductQueryBuilder.findById, db.product.findUnique. rewrite Hp'.
    eexists. split; [reflexivity |]. rewrite get_datePublish, Hd.
    split; [reflexivity | discriminate].
Qed.

End DateNormalization.

Lemma datePublish_string_normalized_witness :
  Date_parse "2024-01-01" = ValidDate 1704067200000 ∧
  (∃ v s' p,
     ProductQueryBuilder.create
       (Product.mk_create "Book" true (DString "2024-01-01") 1) store1 = (Ok v, s') ∧
     products s' !! 2 = Some p ∧
     Product.datePublish p = ValidDate 1704067200000 ∧
     get "datePublish" v = VDate (ValidDate 1704067200000) ∧
     ∃ v', ProductQueryBuilder.findById 2 s' = (Ok v', s') ∧
           get "datePublish" v' = VDate (ValidDate 1704067200000) ∧
           get "datePublish" v' ≠ VStr "2024-01-01").
Proof.
  split; [reflexivity |].
  apply (proj1 (datePublish_string_normalized store1 "2024-01-01" 1704067200000 eq_refl)
           (Product.mk_create "Book" true (DString "2024-01-01") 1) jane);
    reflexivity.
Defined.

(** ** The use cases against the builder *)

Section Usecases.
Context `{DateParse}.

(** C9, as the code has it: the get-all, get-by-id, create and update use
    cases return what the builder of the use case returns, on every input
    and store, for an injected builder and for the default one; the delete
    use case runs the builder's delete, fails as it fails and leaves the
    store it leaves, but returns [undefined] in place of its result. *)
Theorem usecases_delegate (injected : option Builder) :
  let b := default new_ProductQueryBuilder injected in
  GetProductsUsecase.execute (GetProductsUsecase.new injected) = b_findAll b ∧
  (∀ ID, GetProductByIdUsecase.execute (GetProductByIdUsecase.new injected) ID
         = b_findById b ID) ∧
  (∀ data, CreateProductUsecase.execute (CreateProductUsecase.new injected) data
           = b_create b data) ∧
  (∀ ID data, UpdateProductByIdUsecase.execute (UpdateProductByIdUsecase.new injected) ID data
              = b_update b ID data) ∧
  (∀ ID s, DeleteProductByIdUsecase.execute (DeleteProductByIdUsecase.new injected) ID s
           = match b_delete b ID s with
             | (Ok _, s') => (Ok VUndefined, s')
             | (Err e, s') => (Err e, s')
             end) ∧
  (b_findAll new_ProductQueryBuilder = ProductQueryBuilder.findAll ∧
   b_findById new_ProductQueryBuilder = ProductQueryBuilder.findById ∧
   b_create new_ProductQueryBuilder = ProductQueryBuilder.create ∧
   b_update new_ProductQueryBuilder = ProductQueryBuilder.update ∧
   b_delete new_ProductQueryBuilder = ProductQueryBuilder.delete).
Proof.
  intros b. split; [reflexivity |]. split; [reflexivity |].
  split; [reflexivity |]. split; [reflexivity |]. split; [| repeat split].
  intros ID s. unfold DeleteProductByIdUsecase.execute, mbind, M_bind.
  reflexivity.
Qed.

End Usecases.

(** Against C9: on a store that holds product 1, the builder's delete returns
    the removed record and the delete use case returns [undefined]. *)
Lemma delete_usecase_drops_result :
  (ProductQueryBuilder.delete 1 store1).1
    = Ok (VObj [("ID", VNum 1); ("title", VStr "Book"); ("isFiction", VBool true);
                ("datePublish", VDate (ValidDate 1704067200000));
                ("authorID", VNum 1);
                ("createdAt", VDate (ValidDate 1001));
                ("updatedAt", VDate (ValidDate 1001))]%string) ∧
  (DeleteProductByIdUsecase.execute (DeleteProductByIdUsecase.new None) 1 store1).1
    = Ok VUndefined ∧
  DeleteProductByIdUsecase.execute (DeleteProductByIdUsecase.new None) 1 store1
    ≠ ProductQueryBuilder.delete 1 store1.
Proof.
  split; [reflexivity |]. split; [reflexivity |].
  intros Heq. apply (f_equal fst) in Heq. vm_compute in Heq. discriminate Heq.
Qed.

(** ** The validation test of the router *)

Section AuthorRouterProofs.
Variable createAuthor : value -> M value.
Variable updateAuthorById : option Z -> value -> M value.
Variable message : StoreError -> string.

Lemma method_reference_truthy (errors : Result) :
  negb (ToBoolean (isEmpty_ref errors)) = false.
Proof. reflexivity. Qed.

(** C10: the handler of [PUT /:id] never takes its validation branch: the
    test reads the method [errors.isEmpty] without calling it, the negation
    of that is false for every request, so every request, valid or not, is
    handed to [updateAuthorById] and no response of the handler has status
    400. *)
Theorem put_validation_branch_unreachable (request : Request) (s : Store) :
  negb (ToBoolean (isEmpty_ref (validationResult name_chains request))) = false ∧
  put updateAuthorById message request s
    = put_after_validation updateAuthorById message request s ∧
  (∃ r s', updateAuthorById (parseInt (params_id request)) (body request) s = (r, s') ∧
           (put updateAuthorById message request s).2 = s' ∧
           status (put updateAuthorById message request s).1
             = match r with Ok _ => 201 | Err _ => 500 end) ∧
  status (put updateAuthorById message request s).1 ≠ 400.
Proof.
  split; [reflexivity |]. split; [reflexivity |].
  unfold put. rewrite method_reference_truthy. unfold put_after_validation.
  destruct (updateAuthorById (parseInt (params_id request)) (body request) s)
    as [[v | e] s'] eqn:Hcall.
  - split; [by exists (Ok v), s' | simpl; lia].
  - split; [by exists (Err e), s' | simpl; lia].
Qed.

(** The sibling handler calls the method: an ill-formed body stops at 400
    there, and the same body goes through [PUT]. *)
Example post_rejects_what_put_accepts (s : Store) :
  let request := {| params_id := "1"; body := VObj [("firstName"%string, VNum 7)] |} in
  post createAuthor message request s
    = ({| status := 400;
          json := VObj [("errors"%string,
                         array_call (validationResult name_chains request))] |}, s) ∧
  errors_of (validationResult name_chains request) ≠ [] ∧
  put updateAuthorById message request s
    = put_after_validation updateAuthorById message request s.
Proof. repeat split. discriminate. Qed.

End AuthorRouterProofs.

(** ** Writes and the reads after them *)

Lemma project_author_selectFields (s : Store) (a : Author.t) :
  VObj (project_author s AuthorService.selectFields a) = Author.to_value a.
Proof. reflexivity. Qed.

Lemma get_author (s : Store) (p : Product.row) (a : Author.t) :
  authors s !! Product.authorID p = Some a ->
  get "author" (VObj (project_product s ProductQueryBuilder.selectFields p))
  = Author.to_value a.
Proof. intros Ha. rewrite (project_selectFields s p a Ha). reflexivity. Qed.

Section WriteThenRead.
Context `{DateParse}.


End WriteThenRead.


(** X2: creating an author never fails: the record gets the next author ID,
    the two names of the input and the store's time as createdAt and
    updatedAt, whatever timestamps the input carries, and a get-by-id right
    after returns the same record. An update of a stored author returns what
    a get-by-id right after returns: the names of the input, and the stored
    name where the input has none. *)
Theorem author_write_then_read (s : Store) :
  (∀ author, ∃ s',
     let a := {| Author.ID := nextAuthorID s;
                 Author.firstName := Author.i_firstName author;
                 Author.lastName := Author.i_lastName author;
                 Author.createdAt := now s;
                 Author.updatedAt := now s |} in
     AuthorService.createAuthor author s = (Ok (Author.to_value a), s') ∧
     authors s' !! nextAuthorID s = Some a ∧
     AuthorService.getAuthorById (nextAuthorID s) s' = (Ok (Author.to_value a), s')) ∧
  (∀ ID author a, authors s !! ID = Some a ->
     ∃ v s',
       AuthorService.updateAuthorById ID author s = (Ok v, s') ∧
       AuthorService.getAuthorById ID s' = (Ok v, s') ∧
       get "firstName" v
         = VStr (default (Author.firstName a) (Author.u_firstName author)) ∧
       get "lastName" v
         = VStr (default (Author.lastName a) (Author.u_lastName author)) ∧
       get "ID" v = VNum (Author.ID a)).
Proof.
  split.
  - intros author. eexists. simpl.
    unfold AuthorService.createAuthor, db.author.create. simpl.
    split; [reflexivity |]. simpl. rewrite lookup_insert_eq. split; [reflexivity |].
    unfold AuthorService.getAuthorById, db.author.findUnique. simpl.
    by rewrite lookup_insert_eq.
  - intros ID author a Ha.
    unfold AuthorService.updateAuthorById, db.author.update. rewrite Ha.
    eexists _, _. split; [reflexivity |].
    unfold AuthorService.getAuthorById, db.author.findUnique. simpl.
    rewrite lookup_insert_eq. repeat split.
Qed.

Lemma author_write_then_read_witness :
  authors store1 !! 1 = Some jane ∧
  ∃ v s',
    AuthorService.updateAuthorById 1 (Author.full sample_input) store1 = (Ok v, s') ∧
    AuthorService.getAuthorById 1 s' = (Ok v, s') ∧
    get "firstName" v = VStr "Janet" ∧
    get "lastName" v = VStr "Roe" ∧
    get "ID" v = VNum 1.
Proof.
  split; [reflexivity |].
  apply (proj2 (author_write_then_read store1) 1 (Author.full sample_input) jane).
  reflexivity.
Defined.

(** ** Listing *)

(** X3: find-all and get-authors never fail and leave the store as it is;
    they return one entry per stored record, and an entry is in the list
    exactly when find-by-id returns it for the ID of a stored record. On a
    store without records the list is empty. *)
Theorem list_matches_find (s : Store) :
  (∃ items,
     ProductQueryBuilder.findAll s = (Ok (VArr items), s) ∧
     length items = size (products s) ∧
     (products s = ∅ -> items = []) ∧
     ∀ v, v ∈ items ↔
          ∃ ID, is_Some (products s !! ID) ∧
                ProductQueryBuilder.findById ID s = (Ok v, s)) ∧
  (∃ items,
     AuthorService.getAuthors s = (Ok (VArr items), s) ∧
     length items = size (authors s) ∧
     (authors s = ∅ -> items = []) ∧
     ∀ v, v ∈ items ↔
          ∃ ID, is_Some (authors s !! ID) ∧
                AuthorService.getAuthorById ID s = (Ok v, s)).
Proof.
  split.
  - eexists. split; [reflexivity |]. split; [| split].
    + unfold rows_of. by rewrite !length_fmap, length_map_to_list.
    + intros ->. unfold rows_of. by rewrite map_to_list_empty.
    + intros v. rewrite list_elem_of_fmap. split.
      * intros [p [-> [ID Hp]%elem_of_rows_of]]. exists ID. split; [by eexists |].
        unfold ProductQueryBuilder.findById, db.product.findUnique. by rewrite Hp.
      * intros [ID [[p Hp] Hfind]].
        unfold ProductQueryBuilder.findById, db.product.findUnique in Hfind.
        rewrite Hp in Hfind. injection Hfind as <-.
        exists p. split; [done |]. apply elem_of_rows_of. eauto.
  - eexists. split; [reflexivity |]. split; [| split].
    + unfold rows_of. by rewrite !length_fmap, length_map_to_list.
    + intros ->. unfold rows_of. by rewrite map_to_list_empty.
    + intros v. rewrite list_elem_of_fmap. split.
      * intros [a [-> [ID Ha]%elem_of_rows_of]]. exists ID. split; [by eexists |].
        unfold AuthorService.getAuthorById, db.author.findUnique. by rewrite Ha.
      * intros [ID [[a Ha] Hfind]].
        unfold AuthorService.getAuthorById, db.author.findUnique in Hfind.
        rewrite Ha in Hfind. injection Hfind as <-.
        exists a. split; [done |]. apply elem_of_rows_of. eauto.
Qed.

(** ** The invariant along the operations *)

Section Invariant.
Context `{DateParse}.

(** X4: every write of the builder and of the author service takes a store
    that satisfies the invariant (rows under their own ID, every product
    referencing a stored author, counters ahead of the stored IDs) to one
    that satisfies it, whether the write succeeds or fails. *)
Theorem writes_keep_invariant (s : Store) :
  store_wf s ->
  (∀ data r s', ProductQueryBuilder.create data s = (r, s') -> store_wf s') ∧
  (∀ ID data r s', ProductQueryBuilder.update ID data s = (r, s') -> store_wf s') ∧
  (∀ ID r s', ProductQueryBuilder.delete ID s = (r, s') -> store_wf s') ∧
  (∀ author r s', AuthorService.createAuthor author s = (r, s') -> store_wf s') ∧
  (∀ ID author r s', AuthorService.updateAuthorById ID author s = (r, s') -> store_wf s') ∧
  (∀ ID r s', AuthorService.deleteAuthorById ID s = (r, s') -> store_wf s').
Proof.
  intros Hwf. split; [| split; [| split; [| split; [| split]]]].
  - intros data r s'. apply product_create_wf, Hwf.
  - intros ID data r s'. destruct (update_data_authorID data) as [d Hd].
    destruct (Hd ID) as [-> _]. apply product_update_wf, Hwf.
  - intros ID r s'. apply product_delete_wf, Hwf.
  - intros author r s'. apply author_create_wf, Hwf.
  - intros ID author r s'. apply author_update_wf, Hwf.
  - intros ID r s'. unfold AuthorService.deleteAuthorById, mbind, M_bind.
    destruct (db.author.delete ID s) as [[v | e] s1] eqn:Hdel;
      intros [= _ <-]; by apply (author_delete_wf s s1 _ Hwf ID Hdel).
Qed.

End Invariant.

Lemma writes_keep_invariant_witness :
  store_wf store1 ∧
  store_wf (ProductQueryBuilder.create
              (Product.mk_create "Sequel" false (DString "2025-06-30") 1) store1).2.
Proof.
  split; [exact store1_wf |].
  apply (proj1 (writes_keep_invariant store1 store1_wf)
           (Product.mk_create "Sequel" false (DString "2025-06-30") 1)
           (ProductQueryBuilder.create
              (Product.mk_create "Sequel" false (DString "2025-06-30") 1) store1).1).
  by destruct (ProductQueryBuilder.create _ store1).
Defined.

(** X5: on a store that satisfies the invariant, the author nested in a
    product that find-by-id returns is the record that the author service
    returns for the author the product references. *)
Theorem nested_author_matches_service (s : Store) (ID : Z) (p : Product.row) :
  store_wf s -> products s !! ID = Some p ->
  ∃ v, ProductQueryBuilder.findById ID s = (Ok v, s) ∧
       AuthorService.getAuthorById (Product.authorID p) s = (Ok (get "author" v), s) ∧
       get "author" v ≠ VNull.
Proof.
  intros Hwf Hp. destruct (wf_foreign_key s Hwf ID p Hp) as [a Ha].
  unfold ProductQueryBuilder.findById, db.product.findUnique. rewrite Hp.
  eexists. split; [reflexivity |]. rewrite (get_author s p a Ha).
  unfold AuthorService.getAuthorById, db.author.findUnique. rewrite Ha.
  split; [reflexivity | discriminate].
Qed.

Lemma nested_author_matches_service_witness :
  ∃ v, ProductQueryBuilder.findById 1 store1 = (Ok v, store1) ∧
       AuthorService.getAuthorById (Product.authorID book) store1
         = (Ok (get "author" v), store1) ∧
       get "author" v ≠ VNull.
Proof.
  apply (nested_author_matches_service store1 1 book store1_wf). reflexivity.
Defined.

(** ** Deleting *)

Lemma referencing_nil (s : Store) (ID : Z) :
  (∀ id q, products s !! id = Some q -> Product.authorID q ≠ ID) ->
  referencing s ID = [].
Proof.
  intros Hnone. apply elem_of_nil_inv. intros q [Hq [id Hid]]%referencing_elem.
  by apply (Hnone id q).
Qed.

Lemma delete_unreferenced_author (s : Store) (ID : Z) (a : Author.t) :
  authors s !! ID = Some a -> referencing s ID = [] ->
  ∃ s', AuthorService.deleteAuthorById ID s = (Ok VUndefined, s') ∧
        authors s' = base.delete ID (authors s) ∧ products s' = products s.
Proof.
  intros Ha Href. unfold AuthorService.deleteAuthorById, mbind, M_bind, db.author.delete.
  rewrite Ha, Href. eexists. split; [reflexivity |]. split; reflexivity.
Qed.

Section Deleting.
Context `{DateParse}.

Lemma product_delete_tables (s : Store) (ID : Z) (p : Product.row) :
  products s !! ID = Some p ->
  ∃ v s', ProductQueryBuilder.delete ID s = (Ok v, s') ∧
          products s' = base.delete ID (products s) ∧ authors s' = authors s.
Proof.
  intros Hp. unfold ProductQueryBuilder.delete, db.product.delete. rewrite Hp.
  eexists _, _. split; [reflexivity |]. split; reflexivity.
Qed.

(** X6: deleting a stored product succeeds, through the builder and through
    the use case alike; afterwards find-by-id answers [null] for its ID, a
    second delete fails with [NotFoundError], and every other product and
    every author is as before. *)
Theorem product_delete_then_read (s : Store) (ID : Z) (p : Product.row) :
  products s !! ID = Some p ->
  ∃ v s',
    ProductQueryBuilder.delete ID s = (Ok v, s') ∧
    DeleteProductByIdUsecase.execute (DeleteProductByIdUsecase.new None) ID s
      = (Ok VUndefined, s') ∧
    ProductQueryBuilder.findById ID s' = (Ok VNull, s') ∧
    ProductQueryBuilder.delete ID s' = (Err NotFoundError, s') ∧
    (∀ id, id ≠ ID -> products s' !! id = products s !! id) ∧
    authors s' = authors s.
Proof.
  intros Hp. eexists _, _. split.
  { unfold ProductQueryBuilder.delete, db.product.delete. rewrite Hp. reflexivity. }
  split.
  { unfold DeleteProductByIdUsecase.execute, mbind, M_bind. simpl.
    unfold ProductQueryBuilder.delete, db.product.delete. rewrite Hp. reflexivity. }
  unfold ProductQueryBuilder.findById, db.product.findUnique,
    ProductQueryBuilder.delete, db.product.delete. simpl.
  rewrite lookup_delete_eq. repeat split.
  intros id Hne. by rewrite lookup_delete_ne.
Qed.

(** X7: an author whose only referencing product is [pid] cannot be deleted
    while that product is stored; once the product is deleted the author's
    delete succeeds, and afterwards the author is gone: get-by-id answers
    [null] and a second delete fails with [NotFoundError]. *)
Theorem author_delete_after_product (s : Store) (ID pid : Z)
    (a : Author.t) (p : Product.row) :
  authors s !! ID = Some a ->
  products s !! pid = Some p -> Product.authorID p = ID ->
  (∀ id q, products s !! id = Some q -> Product.authorID q = ID -> id = pid) ->
  ∃ v s1 s2,
    AuthorService.deleteAuthorById ID s = (Err ReferentialIntegrityError, s) ∧
    ProductQueryBuilder.delete pid s = (Ok v, s1) ∧
    AuthorService.deleteAuthorById ID s1 = (Ok VUndefined, s2) ∧
    AuthorService.getAuthorById ID s2 = (Ok VNull, s2) ∧
    AuthorService.deleteAuthorById ID s2 = (Err NotFoundError, s2) ∧
    (∀ id, id ≠ pid -> products s2 !! id = products s !! id).
Proof.
  intros Ha Hp Hfk Honly.
  destruct (product_delete_tables s pid p Hp) as (v & s1 & Hdel & Hpr & Hau).
  assert (Hothers : ∀ id, id ≠ pid -> products s1 !! id = products s !! id).
  { intros id Hne. rewrite Hpr. by apply lookup_delete_ne. }
  assert (Href : referencing s1 ID = []).
  { apply referencing_nil. intros id q Hq Hq'.
    destruct (decide (id = pid)) as [-> | Hne].
    - by rewrite Hpr, lookup_delete_eq in Hq.
    - rewrite (Hothers id Hne) in Hq. by apply Hne, (Honly id q). }
  assert (Ha1 : authors s1 !! ID = Some a) by (by rewrite Hau).
  destruct (delete_unreferenced_author s1 ID a Ha1 Href) as (s2 & Hdel2 & Hau2 & Hpr2).
  exists v, s1, s2. split.
  { pose proof (referencing_nonempty s ID pid p Hp Hfk) as Hne.
    unfold AuthorService.deleteAuthorById, mbind, M_bind, db.author.delete.
    rewrite Ha. by destruct (referencing s ID). }
  split; [exact Hdel |]. split; [exact Hdel2 |].
  assert (Hgone : authors s2 !! ID = None) by (rewrite Hau2; apply lookup_delete_eq).
  split.
  { unfold AuthorService.getAuthorById, db.author.findUnique. by rewrite Hgone. }
  split.
  { unfold AuthorService.deleteAuthorById, mbind, M_bind, db.author.delete.
    by rewrite Hgone. }
  intros id Hne. rewrite Hpr2. by apply Hothers.
Qed.

End Deleting.

Lemma product_delete_then_read_witness :
  ∃ v s',
    ProductQueryBuilder.delete 1 store1 = (Ok v, s') ∧
    DeleteProductByIdUsecase.execute (DeleteProductByIdUsecase.new None) 1 store1
      = (Ok VUndefined, s') ∧
    ProductQueryBuilder.findById 1 s' = (Ok VNull, s') ∧
    ProductQueryBuilder.delete 1 s' = (Err NotFoundError, s') ∧
    (∀ id, id ≠ 1 -> products s' !! id = products store1 !! id) ∧
    authors s' = authors store1.
Proof. apply (product_delete_then_read store1 1 book). reflexivity. Defined.

Lemma author_delete_after_product_witness :
  ∃ v s1 s2,
    AuthorService.deleteAuthorById 1 store1 = (Err ReferentialIntegrityError, store1) ∧
    ProductQueryBuilder.delete 1 store1 = (Ok v, s1) ∧
    AuthorService.deleteAuthorById 1 s1 = (Ok VUndefined, s2) ∧
    AuthorService.getAuthorById 1 s2 = (Ok VNull, s2) ∧
    AuthorService.deleteAuthorById 1 s2 = (Err NotFoundError, s2) ∧
    (∀ id, id ≠ 1 -> products s2 !! id = products store1 !! id).
Proof.
  apply (author_delete_after_product store1 1 1 jane book); try reflexivity.
  intros id q Hq _. simpl in Hq. apply lookup_singleton_Some in Hq as [<- _].
  reflexivity.
Defined.

(** ** Updates in sequence *)

Lemma dangling_same_authors (s s' : Store) (authorID : option Z) :
  authors s' = authors s -> dangling s' authorID = dangling s authorID.
Proof. intros Heq. unfold dangling. by rewrite Heq. Qed.

Lemma default_union {A : Type} (x : A) (first second : option A) :
  default (default x first) second = default x (second ∪ first).
Proof. by destruct first, second. Qed.

Section UpdateSequence.
Context `{DateParse}.

(** X8: two updates of a stored product in sequence, each with an existing
    new author if it names one, both succeed and leave the record that the
    single update with the merged input leaves (a field of the later input
    wins), up to updatedAt; the other products and the authors agree too. *)
Theorem update_twice_merges (s : Store) (ID : Z)
    (first second : Product.ProductUpdateData) (p : Product.row) :
  products s !! ID = Some p ->
  dangling s (Product.u_authorID first) = false ->
  dangling s (Product.u_authorID second) = false ->
  ∃ v1 s1 v2 s2 v3 s3 p2 p3,
    ProductQueryBuilder.update ID first s = (Ok v1, s1) ∧
    ProductQueryBuilder.update ID second s1 = (Ok v2, s2) ∧
    ProductQueryBuilder.update ID (merge_update first second) s = (Ok v3, s3) ∧
    products s2 !! ID = Some p2 ∧ products s3 !! ID = Some p3 ∧
    Product.ID p2 = Product.ID p3 ∧
    Product.title p2 = Product.title p3 ∧
    Product.isFiction p2 = Product.isFiction p3 ∧
    Product.datePublish p2 = Product.datePublish p3 ∧
    Product.authorID p2 = Product.authorID p3 ∧
    Product.createdAt p2 = Product.createdAt p3 ∧
    (∀ id, id ≠ ID -> products s2 !! id = products s3 !! id) ∧
    authors s2 = authors s3.
Proof.
  intros Hp Hd1 Hd2.
  destruct (product_update_applies s ID first p Hp Hd1)
    as (v1 & s1 & p1 & Hrun1 & Hp1 & Ho1 & Ha1 & Ht1 & Hf1 & Hdp1 & Hau1 & Hid1 & Hc1 & _).
  assert (Hd2' : dangling s1 (Product.u_authorID second) = false)
    by (by rewrite (dangling_same_authors s s1 _ Ha1)).
  destruct (product_update_applies s1 ID second p1 Hp1 Hd2')
    as (v2 & s2 & p2 & Hrun2 & Hp2 & Ho2 & Ha2 & Ht2 & Hf2 & Hdp2 & Hau2 & Hid2 & Hc2 & _).
  assert (Hd3 : dangling s (Product.u_authorID (merge_update first second)) = false).
  { simpl. destruct (Product.u_authorID second), (Product.u_authorID first);
      first [exact Hd2 | exact Hd1]. }
  destruct (product_update_applies s ID (merge_update first second) p Hp Hd3)
    as (v3 & s3 & p3 & Hrun3 & Hp3 & Ho3 & Ha3 & Ht3 & Hf3 & Hdp3 & Hau3 & Hid3 & Hc3 & _).
  exists v1, s1, v2, s2, v3, s3, p2, p3.
  split; [exact Hrun1 |]. split; [exact Hrun2 |]. split; [exact Hrun3 |].
  split; [exact Hp2 |]. split; [exact Hp3 |].
  simpl in Ht3, Hf3, Hdp3, Hau3.
  split; [congruence |].
  split; [by rewrite Ht2, Ht1, Ht3, default_union |].
  split; [by rewrite Hf2, Hf1, Hf3, default_union |].
  split.
  { rewrite Hdp2, Hdp1, Hdp3, default_union.
    by destruct (Product.u_datePublish second), (Product.u_datePublish first). }
  split; [by rewrite Hau2, Hau1, Hau3, default_union |].
  split; [congruence |].
  split; [| congruence].
  intros id Hne. by rewrite (Ho2 id Hne), (Ho1 id Hne), (Ho3 id Hne).
Qed.

End UpdateSequence.

Lemma update_twice_merges_witness :
  ∃ v1 s1 v2 s2 v3 s3 p2 p3,
    ProductQueryBuilder.update 1
      (Product.mk_update (Some "Draft"%string) (Some false) None None) store1 = (Ok v1, s1) ∧
    ProductQueryBuilder.update 1
      (Product.mk_update (Some "Novel"%string) None (Some (DString "2020-02-29")) None) s1
      = (Ok v2, s2) ∧
    ProductQueryBuilder.update 1
      (merge_update (Product.mk_update (Some "Draft"%string) (Some false) None None)
                    (Product.mk_update (Some "Novel"%string) None
                                       (Some (DString "2020-02-29")) None)) store1
      = (Ok v3, s3) ∧
    products s2 !! 1 = Some p2 ∧ products s3 !! 1 = Some p3 ∧
    Product.ID p2 = Product.ID p3 ∧
    Product.title p2 = Product.title p3 ∧
    Product.isFiction p2 = Product.isFiction p3 ∧
    Product.datePublish p2 = Product.datePublish p3 ∧
    Product.authorID p2 = Product.authorID p3 ∧
    Product.createdAt p2 = Product.createdAt p3 ∧
    (∀ id, id ≠ 1 -> products s2 !! id = products s3 !! id) ∧
    authors s2 = authors s3.
Proof. apply (update_twice_merges store1 1 _ _ book); reflexivity. Defined.

(** ** Sum to n below one *)

Section SumToNBelowOne.
Import SumToN.

(** X9: on a negative integer the three functions part ways: the loop does not
    run and gives 0, and the recursion returns its argument, which differs.
    Below -1, with n * (n + 1) up to 2^53, the closed formula gives
    n * (n + 1) / 2, which is positive and so differs from both. *)
Theorem sum_to_n_negative (n : Z) (fuel depth : nat) :
  n < 0 -> (1 <= fuel)%nat -> (1 <= depth)%nat ->
  sum_to_n_a fuel (Num n) = Some (Num 0) ∧
  sum_to_n_b depth (Num n) = Some (Num n) ∧
  sum_to_n_a fuel (Num n) ≠ sum_to_n_b depth (Num n) ∧
  (n < -1 -> n * (n + 1) <= 2 ^ 53 ->
     sum_to_n_c (Num n) = Num (n * (n + 1) / 2) ∧
     0 < n * (n + 1) / 2 ∧
     Some (sum_to_n_c (Num n)) ≠ sum_to_n_a fuel (Num n) ∧
     Some (sum_to_n_c (Num n)) ≠ sum_to_n_b depth (Num n)).
Proof.
  intros Hn Hfuel Hdepth.
  assert (Ha : sum_to_n_a fuel (Num n) = Some (Num 0)).
  { destruct fuel as [| fuel]; [lia |]. unfold sum_to_n_a. simpl.
    by destruct (Z.leb_spec 1 n); [lia |]. }
  assert (Hb : sum_to_n_b depth (Num n) = Some (Num n)).
  { destruct depth as [| depth]; [lia |]. simpl.
    by destruct (Z.leb_spec n 1); [| lia]. }
  rewrite Ha, Hb. split; [done |]. split; [done |].
  split; [intros [= Heq]; lia |].
  intros Hlow Hbound.
  pose proof (twice_half_consecutive n) as Htwice.
  rewrite sum_to_n_c_exact by nia.
  split; [done |]. split; [nia |].
  split; intros [= Heq]; nia.
Qed.

Lemma sum_to_n_negative_witness :
  sum_to_n_a 1 (Num (-3)) = Some (Num 0) ∧
  sum_to_n_b 1 (Num (-3)) = Some (Num (-3)) ∧
  sum_to_n_a 1 (Num (-3)) ≠ sum_to_n_b 1 (Num (-3)) ∧
  (-3 < -1 -> -3 * (-3 + 1) <= 2 ^ 53 ->
     sum_to_n_c (Num (-3)) = Num (-3 * (-3 + 1) / 2) ∧
     0 < -3 * (-3 + 1) / 2 ∧
     Some (sum_to_n_c (Num (-3))) ≠ sum_to_n_a 1 (Num (-3)) ∧
     Some (sum_to_n_c (Num (-3))) ≠ sum_to_n_b 1 (Num (-3))).
Proof. apply (sum_to_n_negative (-3) 1 1); lia. Defined.

End SumToNBelowOne.

(** ** The handlers *)

Section ValidatingHandlers.
Variable createAuthor : value -> M value.
Variables isBoolean isDate isInt : value -> bool.
Variable execute_create : value -> M value.
Variable execute_update : option Z -> value -> M value.
Variable message : StoreError -> string.

(** X10: the handler of [POST /] of the author router answers 400 exactly
    when the first or the last name of the body is not a string; it then
    leaves the store as it is and reports one error per failing name, and
    the service is not run. Otherwise it answers 201 with what the service
    returns, or 500 with the message of what the service throws. *)
Theorem author_post_validates (request : Request) (s : Store) :
  let first := isString (get "firstName" (body request)) in
  let last := isString (get "lastName" (body request)) in
  let response := post createAuthor message request s in
  (status response.1 = 400 ↔ first && last = false) ∧
  (first && last = false ->
     response.2 = s ∧
     json response.1
       = VObj [("errors"%string, array_call (validationResult name_chains request))] ∧
     length (errors_of (validationResult name_chains request))
       = ((if first then 0 else 1) + (if last then 0 else 1))%nat) ∧
  (first && last = true ->
     response = match createAuthor (body request) s with
                | (Ok newAuthor, s') => ({| status := 201; json := newAuthor |}, s')
                | (Err error, s') =>
                    ({| status := 500; json := VStr (message error) |}, s')
                end).
Proof.
  simpl. unfold post, validationResult, name_chains. simpl.
  destruct (isString (get "firstName" (body request))),
           (isString (get "lastName" (body request))); simpl;
    try (split; [split; done | split; [intros _; repeat split | discriminate]]).
  split; [| split; [discriminate | done]].
  split; [| discriminate].
  destruct (createAuthor (body request) s) as [[v | e] s']; simpl; discriminate.
Qed.

(** X11: the handler of [PUT /:id] of the product router answers 400 exactly
    when a field that is present in the body fails its check, and then leaves
    the store as it is; a body without any of the four fields passes and
    reaches the use case. *)
Theorem product_put_validates (request : Request) (s : Store) :
  let ok := optional isString (get "title" (body request))
            && optional isBoolean (get "isFiction" (body request))
            && optional isDate (get "datePublish" (body request))
            && optional isInt (get "authorID" (body request)) in
  let response := product_put isBoolean isDate isInt execute_update message request s in
  (status response.1 = 400 ↔ ok = false) ∧
  (ok = false -> response.2 = s) ∧
  (ok = true ->
     response = match execute_update (parseInt (params_id request)) (body request) s with
                | (Ok updatedProduct, s') =>
                    ({| status := 201; json := updatedProduct |}, s')
                | (Err error, s') =>
                    ({| status := 500; json := VStr (message error) |}, s')
                end) ∧
  (body request = VObj [] -> ok = true).
Proof.
  simpl. unfold product_put, validationResult, update_chains. simpl.
  split; [| split; [| split]].
  4: { intros ->. reflexivity. }
  all: destruct (optional isString (get "title" (body request))),
           (optional isBoolean (get "isFiction" (body request))),
           (optional isDate (get "datePublish" (body request))),
           (optional isInt (get "authorID" (body request))); simpl;
    try done; try (split; [done | discriminate]).
  split; [| discriminate].
  destruct (execute_update (parseInt (params_id request)) (body request) s)
    as [[v | e] s']; simpl; discriminate.
Qed.

(** X12: the handler of [POST /] of the product router answers 400 exactly
    when one of title, isFiction, datePublish and authorID fails its check,
    and then leaves the store as it is and does not run the use case;
    otherwise it answers 201 with what the use case returns, or 500 with the
    message of what it throws. *)
Theorem product_post_validates (request : Request) (s : Store) :
  let title := isString (get "title" (body request)) in
  let fiction := isBoolean (get "isFiction" (body request)) in
  let date := isDate (get "datePublish" (body request)) in
  let author := isInt (get "authorID" (body request)) in
  let response := product_post isBoolean isDate isInt execute_create message request s in
  (status response.1 = 400 ↔ title && fiction && date && author = false) ∧
  (title && fiction && date && author = false -> response.2 = s) ∧
  (title && fiction && date && author = true ->
     response = match execute_create (body request) s with
                | (Ok newProduct, s') => ({| status := 201; json := newProduct |}, s')
                | (Err error, s') =>
                    ({| status := 500; json := VStr (message error) |}, s')
                end).
Proof.
  simpl. unfold product_post, validationResult, create_chains. simpl.
  split; [| split].
  all: destruct (isString (get "title" (body request))),
           (isBoolean (get "isFiction" (body request))),
           (isDate (get "datePublish" (body request))),
           (isInt (get "authorID" (body request))); simpl;
    try done; try (split; [done | discriminate]).
  split; [| discriminate].
  destruct (execute_create (body request) s) as [[v | e] s']; simpl; discriminate.
Qed.

End ValidatingHandlers.

Section ReadingHandlers.
Context `{DateParse}.
Variable nan : M value.
Variable message : StoreError -> string.

(** X13: with an [id] that parses to an integer, the handler of [GET /:id]
    of the author router answers 200 with the author when the store has it
    and 404 with 'Author not found' when it has not; the handler of [GET /]
    answers 200 always. Neither changes the store. *)
Theorem author_get_answers (request : Request) (s : Store) (ID : Z) :
  parseInt (params_id request) = Some ID ->
  author_get_one nan message request s
    = (match authors s !! ID with
       | Some a => {| status := 200; json := Author.to_value a |}
       | None => {| status := 404; json := VStr "Author not found" |}
       end, s) ∧
  ∃ items, author_get_all message request s
           = ({| status := 200; json := VArr items |}, s) ∧
           length items = size (authors s).
Proof.
  intros Hid. split.
  - unfold author_get_one. rewrite Hid. simpl.
    unfold AuthorService.getAuthorById, db.author.findUnique.
    by destruct (authors s !! ID).
  - unfold author_get_all, AuthorService.getAuthors, db.author.findMany.
    eexists. split; [reflexivity |].
    unfold rows_of. by rewrite !length_fmap, length_map_to_list.
Qed.

(** X14: with an [id] that parses to an integer, the handler of
    [DELETE /:id] of the author router answers 500 with the message of
    [NotFoundError] when the store has no such author, and 500 with the
    message of [ReferentialIntegrityError] when a product references the
    author, in both cases leaving the store as it is; otherwise it answers
    200 and the author is gone. It never answers 404 or 400. *)
Theorem author_delete_answers (request : Request) (s : Store) (ID : Z) :
  parseInt (params_id request) = Some ID ->
  let response := author_delete nan message request s in
  (authors s !! ID = None ->
     response = ({| status := 500; json := VStr (message NotFoundError) |}, s)) ∧
  (is_Some (authors s !! ID) -> referencing s ID ≠ [] ->
     response
       = ({| status := 500; json := VStr (message ReferentialIntegrityError) |}, s)) ∧
  (is_Some (authors s !! ID) -> referencing s ID = [] ->
     response.1 = {| status := 200; json := VStr "Author has been deleted" |} ∧
     authors response.2 = base.delete ID (authors s) ∧
     products response.2 = products s) ∧
  status response.1 ≠ 404 ∧ status response.1 ≠ 400.
Proof.
  intros Hid. simpl. unfold author_delete. rewrite Hid. simpl.
  unfold AuthorService.deleteAuthorById, mbind, M_bind, db.author.delete.
  destruct (authors s !! ID) as [a |] eqn:Ha.
  - destruct (referencing s ID) as [| q qs] eqn:Href; simpl.
    + split; [discriminate |]. split; [done |]. split; [done |]. split; lia.
    + split; [discriminate |]. split; [done |].
      split; [intros _ Hnil; discriminate Hnil |]. split; lia.
  - split; [done |]. split; [by intros [? ?] |]. split; [by intros [? ?] |].
    simpl. split; lia.
Qed.

(** X15: with an [id] that parses to an integer, on a store that satisfies
    the invariant, the handler of [GET /:id] of the product router answers
    200 with a product under the fixed projection when the store has it and
    404 with 'Product not found' when it has not; the handler of [GET /]
    answers 200 with a list of products under the fixed projection. Neither
    changes the store. *)
Theorem product_get_answers (request : Request) (s : Store) (ID : Z) :
  store_wf s ->
  parseInt (params_id request) = Some ID ->
  (∀ p, products s !! ID = Some p ->
     ∃ v, product_get_one nan message request s = ({| status := 200; json := v |}, s) ∧
          is_ProductRead v ∧ get "ID" v = VNum (Product.ID p)) ∧
  (products s !! ID = None ->
     product_get_one nan message request s
       = ({| status := 404; json := VStr "Product not found" |}, s)) ∧
  ∃ items, product_get_all message request s
           = ({| status := 200; json := VArr items |}, s) ∧
           Forall is_ProductRead items ∧ length items = size (products s).
Proof.
  intros Hwf Hid. split; [| split].
  - intros p Hp. destruct (wf_foreign_key s Hwf ID p Hp) as [a Ha].
    unfold product_get_one. rewrite Hid. simpl.
    unfold ProductQueryBuilder.findById, db.product.findUnique. rewrite Hp. simpl.
    rewrite Ha. eexists. split; [reflexivity |]. split; [| reflexivity].
    by exists (read_of p a).
  - intros Hp. unfold product_get_one. rewrite Hid. simpl.
    unfold ProductQueryBuilder.findById, db.product.findUnique. by rewrite Hp.
  - assert (Hall : ∃ items, ProductQueryBuilder.findAll s = (Ok (VArr items), s) ∧
                             length items = size (products s)).
    { eexists. split; [reflexivity |].
      unfold rows_of. by rewrite !length_fmap, length_map_to_list. }
    destruct Hall as (items & Hall & Hlen).
    exists items. unfold product_get_all.
    change (GetProductsUsecase.execute (GetProductsUsecase.new None) s)
      with (ProductQueryBuilder.findAll s).
    rewrite Hall. split; [reflexivity |]. split; [| exact Hlen].
    destruct (findAll_projected s Hwf _ _ Hall) as (items' & [= <-] & Hread).
    exact Hread.
Qed.

(** X16: with an [id] that parses to an integer, the handler of
    [DELETE /:id] of the product router answers 500 with the message of
    [NotFoundError] when the store has no such product, leaving the store as
    it is, and otherwise answers 200 with the product gone and the authors
    as before. It never answers 404. *)
Theorem product_delete_answers (request : Request) (s : Store) (ID : Z) :
  parseInt (params_id request) = Some ID ->
  let response := product_delete nan message request s in
  (products s !! ID = None ->
     response = ({| status := 500; json := VStr (message NotFoundError) |}, s)) ∧
  (is_Some (products s !! ID) ->
     response.1 = {| status := 200; json := VStr "Product has been deleted" |} ∧
     products response.2 = base.delete ID (products s) ∧
     authors response.2 = authors s) ∧
  status response.1 ≠ 404.
Proof.
  intros Hid. simpl. unfold product_delete. rewrite Hid. simpl.
  unfold DeleteProductByIdUsecase.execute, mbind, M_bind. simpl.
  unfold ProductQueryBuilder.delete, db.product.delete.
  destruct (products s !! ID) as [p |] eqn:Hp; simpl.
  - split; [discriminate |]. split; [done | lia].
  - split; [done |]. split; [by intros [? ?] | lia].
Qed.

End ReadingHandlers.

Lemma author_get_answers_witness :
  parseInt (params_id request1) = Some 1 ∧
  author_get_one (mret VNull) (fun _ => "error"%string) request1 store1
    = ({| status := 200; json := Author.to_value jane |}, store1).
Proof.
  split; [reflexivity |].
  apply (proj1 (author_get_answers (mret VNull) (fun _ => "error"%string)
                  request1 store1 1 eq_refl)).
Defined.

Lemma author_delete_answers_witness :
  parseInt (params_id request1) = Some 1 ∧
  author_delete (mret VNull) (fun _ => "error"%string) request1 store1
    = ({| status := 500; json := VStr "error" |}, store1).
Proof.
  split; [reflexivity |].
  apply (proj1 (proj2 (author_delete_answers (mret VNull) (fun _ => "error"%string)
                         request1 store1 1 eq_refl))).
  - by eexists.
  - by apply (referencing_nonempty store1 1 1 book).
Defined.

Lemma product_get_answers_witness :
  store_wf store1 ∧ parseInt (params_id request1) = Some 1 ∧
  ∃ v, product_get_one (mret VNull) (fun _ => "error"%string) request1 store1
       = ({| status := 200; json := v |}, store1) ∧
       is_ProductRead v ∧ get "ID" v = VNum (Product.ID book).
Proof.
  split; [exact store1_wf |]. split; [reflexivity |].
  apply (proj1 (product_get_answers (mret VNull) (fun _ => "error"%string)
                  request1 store1 1 store1_wf eq_refl) book).
  reflexivity.
Defined.

Lemma product_delete_answers_witness :
  parseInt (params_id request1) = Some 1 ∧
  (product_delete (mret VNull) (fun _ => "error"%string) request1 store1).1
    = {| status := 200; json := VStr "Product has been deleted" |}.
Proof.
  split; [reflexivity |].
  apply (proj1 (proj2 (product_delete_answers (mret VNull) (fun _ => "error"%string)
                         request1 store1 1 eq_refl))).
  by eexists.
Defined.

(** ** Products and their authors *)

Section AcrossEntities.
Context `{DateParse}.

(** X17: an update that gives a stored product another, existing author
    returns the product with that author nested, and from then on that
    author cannot be deleted: the delete fails with
    [ReferentialIntegrityError] and changes nothing. *)
Theorem update_moves_product (s : Store) (ID b : Z)
    (data : Product.ProductUpdateData) (p : Product.row) (author : Author.t) :
  products s !! ID = Some p ->
  Product.u_authorID data = Some b -> authors s !! b = Some author ->
  ∃ v s',
    ProductQueryBuilder.update ID data s = (Ok v, s') ∧
    get "author" v = Author.to_value author ∧
    AuthorService.deleteAuthorById b s' = (Err ReferentialIntegrityError, s').
Proof.
  intros Hp Hb Hauthor.
  assert (Hdang : dangling s (Product.u_authorID data) = false).
  { rewrite Hb. simpl. apply bool_decide_eq_false. by rewrite Hauthor. }
  destruct (product_update_applies s ID data p Hp Hdang)
    as (v & s' & p' & Hrun & Hp' & _ & Hau & _ & _ & _ & Hfk & _).
  rewrite Hb in Hfk. simpl in Hfk.
  exists v, s'. split; [exact Hrun |].
  assert (Hv : v = VObj (project_product s' ProductQueryBuilder.selectFields p')).
  { destruct (update_data_authorID data) as [d Hdd].
    destruct (Hdd ID) as (Heq & _ & _ & _ & Hau'). rewrite Heq in Hrun.
    unfold db.product.update in Hrun. rewrite Hp, Hau', Hdang in Hrun.
    injection Hrun as <- <-. simpl in Hp'. rewrite lookup_insert_eq in Hp'.
    by injection Hp' as <-. }
  assert (Hauthor' : authors s' !! b = Some author) by (by rewrite Hau).
  split.
  - rewrite Hv. apply get_author. by rewrite Hfk.
  - pose proof (referencing_nonempty s' b ID p' Hp' Hfk) as Hne.
    unfold AuthorService.deleteAuthorById, mbind, M_bind, db.author.delete.
    rewrite Hauthor'. by destruct (referencing s' b).
Qed.

(** X18: after an author update, a product of that author read by find-by-id
    carries the updated author: the nested author is the record that the
    update returned. *)
Theorem author_update_shows_in_products (s : Store) (ID pid : Z)
    (input : Author.update_input) (a : Author.t) (p : Product.row) :
  authors s !! ID = Some a ->
  products s !! pid = Some p -> Product.authorID p = ID ->
  ∃ v s' w,
    AuthorService.updateAuthorById ID input s = (Ok v, s') ∧
    ProductQueryBuilder.findById pid s' = (Ok w, s') ∧
    get "author" w = v ∧
    get "firstName" (get "author" w)
      = VStr (default (Author.firstName a) (Author.u_firstName input)) ∧
    get "lastName" (get "author" w)
      = VStr (default (Author.lastName a) (Author.u_lastName input)).
Proof.
  intros Ha Hp Hfk.
  unfold AuthorService.updateAuthorById, db.author.update. rewrite Ha.
  eexists _, _, _. split; [reflexivity |].
  unfold ProductQueryBuilder.findById, db.product.findUnique. simpl. rewrite Hp.
  split; [reflexivity |]. simpl. rewrite Hfk, lookup_insert_eq. repeat split.
Qed.

(** X19: on a store that satisfies the invariant, creating a record and then
    deleting it under the ID that the create returned succeeds and restores
    both tables; so for an author and, given an existing author to
    reference, for a product. *)
Theorem create_then_delete_restores (s : Store) :
  store_wf s ->
  (∀ input, ∃ v s1 s2,
     AuthorService.createAuthor input s = (Ok v, s1) ∧
     get "ID" v = VNum (nextAuthorID s) ∧
     AuthorService.deleteAuthorById (nextAuthorID s) s1 = (Ok VUndefined, s2) ∧
     authors s2 = authors s ∧ products s2 = products s) ∧
  (∀ data, is_Some (authors s !! Product.c_authorID data) ->
     ∃ v s1 w s2,
       ProductQueryBuilder.create data s = (Ok v, s1) ∧
       get "ID" v = VNum (nextProductID s) ∧
       ProductQueryBuilder.delete (nextProductID s) s1 = (Ok w, s2) ∧
       authors s2 = authors s ∧ products s2 = products s).
Proof.
  intros Hwf.
  assert (Hfresh_a : authors s !! nextAuthorID s = None).
  { apply eq_None_not_Some. intros Hin. apply (wf_next_author s Hwf) in Hin. lia. }
  assert (Hfresh_p : products s !! nextProductID s = None).
  { apply eq_None_not_Some. intros Hin. apply (wf_next_product s Hwf) in Hin. lia. }
  split.
  - intros input.
    destruct (AuthorService.createAuthor input s) as [r s1] eqn:Hrun.
    unfold AuthorService.createAuthor, db.author.create in Hrun.
    injection Hrun as <- <-.
    set (s1 := mk_store _ _ _ _ _).
    assert (Hau1 : authors s1 = <[nextAuthorID s := {|
                     Author.ID := nextAuthorID s;
                     Author.firstName := Author.i_firstName input;
                     Author.lastName := Author.i_lastName input;
                     Author.createdAt := now s; Author.updatedAt := now s |}]> (authors s))
      by reflexivity.
    assert (Hpr1 : products s1 = products s) by reflexivity.
    assert (Ha1 : authors s1 !! nextAuthorID s = Some {|
                     Author.ID := nextAuthorID s;
                     Author.firstName := Author.i_firstName input;
                     Author.lastName := Author.i_lastName input;
                     Author.createdAt := now s; Author.updatedAt := now s |})
      by (rewrite Hau1; apply lookup_insert_eq).
    assert (Href : referencing s1 (nextAuthorID s) = []).
    { apply referencing_nil. intros id q Hq Hq'. rewrite Hpr1 in Hq.
      destruct (wf_foreign_key s Hwf id q Hq) as [a Ha].
      rewrite Hq' in Ha. by rewrite Hfresh_a in Ha. }
    destruct (delete_unreferenced_author s1 _ _ Ha1 Href) as (s2 & Hdel & Hau2 & Hpr2).
    eexists _, s1, s2. split; [reflexivity |]. split; [reflexivity |].
    split; [exact Hdel |]. split; [| congruence].
    rewrite Hau2, Hau1. by apply delete_insert_id.
  - intros data [a Ha].
    unfold ProductQueryBuilder.create, db.product.create. simpl. rewrite Ha.
    eexists _, _, _, _. split; [reflexivity |]. split; [reflexivity |].
    unfold ProductQueryBuilder.delete, db.product.delete. simpl.
    rewrite lookup_insert_eq. split; [reflexivity |]. simpl.
    split; [reflexivity |]. by apply delete_insert_id.
Qed.

End AcrossEntities.

Lemma update_moves_product_witness :
  Product.authorID book ≠ 2 ∧
  AuthorService.deleteAuthorById 2 store2
    ≠ (Err ReferentialIntegrityError, store2) ∧
  ∃ v s',
    ProductQueryBuilder.update 1 (Product.mk_update None None None (Some 2)) store2
      = (Ok v, s') ∧
    get "author" v = Author.to_value john ∧
    AuthorService.deleteAuthorById 2 s' = (Err ReferentialIntegrityError, s').
Proof.
  split; [discriminate |]. split; [vm_compute; discriminate |].
  apply (update_moves_product store2 1 2
           (Product.mk_update None None None (Some 2)) book john); reflexivity.
Defined.

Lemma author_update_shows_in_products_witness :
  ∃ v s' w,
    AuthorService.updateAuthorById 1 (Author.full sample_input) store1 = (Ok v, s') ∧
    ProductQueryBuilder.findById 1 s' = (Ok w, s') ∧
    get "author" w = v ∧
    get "firstName" (get "author" w) = VStr (Author.i_firstName sample_input) ∧
    get "lastName" (get "author" w) = VStr (Author.i_lastName sample_input).
Proof.
  apply (author_update_shows_in_products store1 1 1 (Author.full sample_input)
           jane book); reflexivity.
Defined.

Lemma create_then_delete_restores_witness :
  store_wf store1 ∧
  ∃ v s1 s2,
    AuthorService.createAuthor sample_input store1 = (Ok v, s1) ∧
    get "ID" v = VNum (nextAuthorID store1) ∧
    AuthorService.deleteAuthorById (nextAuthorID store1) s1 = (Ok VUndefined, s2) ∧
    authors s2 = authors store1 ∧ products s2 = products store1.
Proof.
  split; [exact store1_wf |].
  apply (proj1 (create_then_delete_restores store1 store1_wf) sample_input).
Defined.
